(** * ShapTabular: the SHAP explainer for tabular data

    A shallow embedding of [omnixai/explainers/tabular/agnostic/shap.py]:
    the constructor [ShapTabular.__init__] and the method
    [ShapTabular.explain], with the Python exceptions they raise, the
    calls they make to the prediction function and to the [shap] package,
    and the records they hand to the [FeatureImportance] result. *)

From Stdlib Require Import QArith Qabs.
From stdpp Require Import gmap strings list sorting.


(** ** Python values, exceptions and results *)

(** The exceptions the modelled code can raise. *)
Inductive exn :=
| AssertionError (msg : string)
| TypeError (msg : string)
| IndexError
| KeyError (key : string)
| ValueError.

(** The outcome of running Python code: a value or a raised exception. *)
Inductive result (A : Type) :=
| Ok (a : A)
| Raise (e : exn).
Arguments Ok {A} a.
Arguments Raise {A} e.

#[global] Instance result_ret : MRet result := λ A a, Ok a.
#[global] Instance result_bind : MBind result := λ A B f r,
  match r with Ok a => f a | Raise e => Raise e end.
#[global] Instance result_fmap : FMap result := λ A B f r,
  match r with Ok a => Ok (f a) | Raise e => Raise e end.

(** A feature value as it sits in a cell of the data frame. *)
Inductive pyval :=
| PInt (z : Z)
| PFloat (q : Q)
| PStr (s : string).

(** Keyword arguments: a dict from names to values. *)
Abbreviation kwargs := (gmap string pyval).

(** A NumPy array of floats of any rank, or the Python list of arrays
    that [shap_values] returns for a multi-output model. *)
#[warnings="-register-all"]
Inductive ndarray :=
| Scalar (q : Q)
| Array (items : list ndarray).

(** [l[i]] for a Python int [i]: negative indices count from the end,
    anything out of range raises [IndexError]. *)
Definition py_index {A} (l : list A) (i : Z) : result A :=
  let n := Z.of_nat (length l) in
  let j := if (i <? 0)%Z then (i + n)%Z else i in
  if ((0 <=? j)%Z && (j <? n)%Z)
  then match l !! Z.to_nat j with Some x => Ok x | None => Raise IndexError end
  else Raise IndexError.

(** [a[i]] on an array or a list of arrays; a scalar cannot be indexed. *)
Definition nd_getitem (a : ndarray) (i : Z) : result ndarray :=
  match a with
  | Scalar _ => Raise IndexError
  | Array items => py_index items i
  end.

(** [a[indices]]: NumPy indexing by a list of positions. *)
Definition nd_take (a : ndarray) (indices : list nat) : result ndarray :=
  match a with
  | Scalar _ => Raise IndexError
  | Array items => Array <$> mapM (λ j, py_index items (Z.of_nat j)) indices
  end.

(** [float(x)] on an element of an array. *)
Definition py_float (a : ndarray) : result Q :=
  match a with
  | Scalar q => Ok q
  | Array _ => Raise (TypeError "only size-1 arrays can be converted to Python scalars")
  end.

(** [assert cond, msg]. *)
Definition py_assert (cond : bool) (msg : string) : result () :=
  if cond then Ok () else Raise (AssertionError msg).

(** [x not in c] where [c] is a list or [None]. *)
Definition py_not_in (x : string) (c : option (list string)) : result bool :=
  match c with
  | Some l => Ok (bool_decide (x ∉ l))
  | None => Raise (TypeError "argument of type 'NoneType' is not iterable")
  end.

(** ** Tabular data *)

(** One row of a data frame: named feature values in column order. *)
Abbreviation Row := (list (string * pyval)).

Record Tabular := {
  tab_rows : list Row;
  tab_categorical_columns : list string;
  tab_target_column : option string;
}.

(** [X.iloc(i)]: the table holding only row [i]. *)
Definition Tabular_iloc (X : Tabular) (i : nat) : result Tabular :=
  row ← py_index (tab_rows X) (Z.of_nat i);
  Ok {| tab_rows := [row];
        tab_categorical_columns := tab_categorical_columns X;
        tab_target_column := tab_target_column X |}.

(** A one-row data frame, as [X.iloc(i).to_pd()] gives it. *)
Record DataFrame := { df_rows : list Row }.

Definition to_pd (X : Tabular) : DataFrame := {| df_rows := tab_rows X |}.

(** [df[name].values[0]]: the cell of the first row in column [name]. *)
Definition df_value (df : DataFrame) (name : string) : result pyval :=
  match df_rows df with
  | [] => Raise IndexError
  | row :: _ =>
      match list_find (λ c, c.1 = name) row with
      | Some (_, (_, v)) => Ok v
      | None => Raise (KeyError name)
      end
  end.

(** The transformed instances: a two-dimensional array of floats. *)
Abbreviation Instances := (list (list Q)).

(** ** Calls that leave the module

    The prediction function and the [shap] package are collaborators: a
    call to one of them is recorded in a trace, in program order, and may
    raise. *)

Inductive event :=
| EvSample (data : Instances) (nsamples : pyval)
| EvKernelExplainer (data : Instances) (link : string)
| EvShapValues (instances : Instances)
| EvPredict (instances : Instances).

Definition M (A : Type) : Type := list event → result A * list event.

#[global] Instance M_ret : MRet M := λ A a tr, (Ok a, tr).
#[global] Instance M_bind : MBind M := λ A B f m tr,
  match m tr with
  | (Ok a, tr') => f a tr'
  | (Raise e, tr') => (Raise e, tr')
  end.

(** Run pure fallible code inside [M]. *)
Definition lift {A} (r : result A) : M A := λ tr, (r, tr).

(** Perform a call: log it, then take its outcome. *)
Definition call {A} (ev : event) (r : result A) : M A := λ tr, (r, tr ++ [ev]).

(** ** The explainer objects *)

(** [shap.KernelExplainer]: only the method used here. *)
Record KernelExplainer := {
  shap_values : Instances → kwargs → result ndarray;
}.

(** The state [TabularExplainer.__init__] sets up; its code is not part
    of this module. *)
Record TabularExplainer := {
  mode : string;
  data : Instances;
  target_column : option string;
  feature_columns : list string;
  transformer : Tabular → result Instances;
  predict_fn : Instances → result (list (list Q));
}.

Record ShapTabular := {
  base : TabularExplainer;
  ignored_features : gset string;
  explainer : KernelExplainer;
}.

Definition target_column_msg (t : string) : string :=
  "The target column " +:+ t +:+ " cannot be in the ignored feature list.".

Section Init.

(** The prediction function as the caller passes it. *)
Variable PredictFunction : Type.

(** [TabularExplainer.__init__], defined in the base module. *)
Variable TabularExplainer_init :
  Tabular → PredictFunction → string → kwargs → result TabularExplainer.

(** [shap.sample] and the constructor of [shap.KernelExplainer]. *)
Variable shap_sample : Instances → pyval → result Instances.
Variable shap_KernelExplainer :
  (Instances → result (list (list Q))) → Instances → string → kwargs →
  result KernelExplainer.

Definition link_of_mode (m : string) : string :=
  if String.eqb m "classification" then "logit" else "identity".

(** The background data handed to [shap.KernelExplainer]. *)
Definition background (self : TabularExplainer) (kw : kwargs) : M Instances :=
  match kw !! "nsamples" with
  | Some n => call (EvSample (data self) n) (shap_sample (data self) n)
  | None => mret (data self)
  end.

Definition ShapTabular_init
    (training_data : Tabular) (predict_function : PredictFunction)
    (mode : string) (ignored : option (list string)) (kw : kwargs)
    : M ShapTabular :=
  self ← lift (TabularExplainer_init training_data predict_function mode kw);
  let ignored_set : gset string :=
    match ignored with Some l => list_to_set l | None => ∅ end in
  _ ← match target_column self with
      | Some t =>
          lift (ok ← py_not_in t ignored; py_assert ok (target_column_msg t))
      | None => mret ()
      end;
  bg ← background self kw;
  let link := link_of_mode mode in
  expl ← call (EvKernelExplainer bg link)
              (shap_KernelExplainer (predict_fn self) bg link kw);
  mret {| base := self; ignored_features := ignored_set; explainer := expl |}.

End Init.

(** ** The explanation records *)

(** Modelled from the spec: the records of [FeatureImportance], whose
    module (omnixai/explanations/tabular/feature_importance.py) is outside
    this one. A record holds the instance, an optional target label and
    the (feature, value, score) triples. *)
Record Explanation := {
  instance : DataFrame;
  target_label : option Z;
  features : list string;
  values : list pyval;
  scores : list Q;
}.

(** Modelled from the spec: [FeatureImportance], an ordered collection of
    records, one appended per explained instance. *)
Record FeatureImportance := {
  fi_mode : string;
  explanations : list Explanation;
}.

Definition FeatureImportance_new (mode : string) : FeatureImportance :=
  {| fi_mode := mode; explanations := [] |}.

Abbreviation Triple := (string * pyval * Q)%type.

Definition abs_score (t : Triple) : Q := Qabs t.2.

(** Modelled from the spec: the order [add] gives to the triples when
    [sort] is set, descending absolute score with ties in their original
    order. Each triple is inserted in front of the first one whose
    absolute score is not larger. *)
Fixpoint insert_desc (t : Triple) (l : list Triple) : list Triple :=
  match l with
  | [] => [t]
  | u :: l' =>
      if Qle_bool (abs_score u) (abs_score t) then t :: u :: l'
      else u :: insert_desc t l'
  end.

Definition sort_desc (l : list Triple) : list Triple := foldr insert_desc [] l.

(** The scores of a one-dimensional array, as a list of numbers. *)
Definition nd_floats (a : ndarray) : result (list Q) :=
  match a with
  | Scalar _ => Raise (TypeError "iteration over a 0-d array")
  | Array items => mapM py_float items
  end.

(** Modelled from the spec: [FeatureImportance.add], which appends one
    record and, when [sort] is set, orders its triples by descending
    absolute score. *)
Definition FeatureImportance_add
    (self : FeatureImportance) (instance : DataFrame) (target_label : option Z)
    (feature_names : list string) (feature_values : list pyval)
    (importance_scores : ndarray) (sort : bool) : result FeatureImportance :=
  scores ← nd_floats importance_scores;
  let record :=
    if sort then
      let s := sort_desc (zip (zip feature_names feature_values) scores) in
      {| instance := instance; target_label := target_label;
         features := s.*1.*1; values := s.*1.*2; scores := s.*2 |}
    else
      {| instance := instance; target_label := target_label;
         features := feature_names; values := feature_values; scores := scores |} in
  Ok {| fi_mode := fi_mode self; explanations := explanations self ++ [record] |}.

(** ** Label selection *)

(** A single value that is not a Python [int] and has no length. *)
Inductive scalar :=
| NumpyInt (z : Z)
| PyBool (b : bool)
| PyFloat (q : Q).

(** The labels argument [y] of [explain]: a Python [int], a single value
    of another type, or a sequence of class indices. *)
Inductive labels :=
| LInt (v : Z)
| LScalar (s : scalar)
| LSeq (l : list Z).

(** The message of [len(y)] on a value without length. *)
Definition no_len_msg (s : scalar) : string :=
  "object of type '" +:+
  match s with
  | NumpyInt _ => "numpy.int64"
  | PyBool _ => "bool"
  | PyFloat _ => "float"
  end +:+ "' has no len()".

(** [np.argmax] of one row: the first position holding the maximum. *)
Fixpoint argmax_from (best_i : nat) (best : Q) (i : nat) (l : list Q) : nat :=
  match l with
  | [] => best_i
  | x :: l' =>
      if Qle_bool x best then argmax_from best_i best (S i) l'
      else argmax_from i x (S i) l'
  end.

Definition np_argmax (row : list Q) : result nat :=
  match row with
  | [] => Raise ValueError
  | x :: l => Ok (argmax_from 0 x 1 l)
  end.

(** [np.argmax(prediction_scores, axis=1)]. *)
Definition np_argmax_axis1 (prediction_scores : list (list Q)) : result (list Z) :=
  fmap Z.of_nat <$> mapM np_argmax prediction_scores.

(** ** explain *)

Definition labels_msg : string :=
  "Parameter ``y`` is a <class 'list'>, the length of y should be the same as the number of instances in X.".

Definition is_classification (self : ShapTabular) : bool :=
  String.eqb (mode (base self)) "classification".

(** Lines 80-93: the labels to explain, [None] for regression. *)
Definition resolve_labels (self : ShapTabular) (instances : Instances)
    (y : option labels) : M (option (list Z)) :=
  if is_classification self then
    match y with
    | Some (LInt v) => mret (Some (replicate (length instances) v))
    | Some (LScalar s) => lift (Raise (TypeError (no_len_msg s)))
    | Some (LSeq l) =>
        _ ← lift (py_assert (bool_decide (length instances = length l)) labels_msg);
        mret (Some l)
    | None =>
        prediction_scores ← call (EvPredict instances) (predict_fn (base self) instances);
        y ← lift (np_argmax_axis1 prediction_scores);
        mret (Some y)
    end
  else mret None.

(** Lines 95-98: the positions of the features that are not ignored. *)
Definition valid_indices (self : ShapTabular) : list nat :=
  if bool_decide (size (ignored_features self) = 0)
  then seq 0 (length (feature_columns (base self)))
  else (filter (λ p, p.2 ∉ ignored_features self)
               (imap pair (feature_columns (base self)))).*1.

(** Lines 101-123: the body of the loop, for the instance at position [i]. *)
Definition explain_instance (self : ShapTabular) (X : Tabular)
    (shap_values : ndarray) (y : option (list Z)) (valid_indices : list nat)
    (explanations : FeatureImportance) (i : nat) : result FeatureImportance :=
  let columns := feature_columns (base self) in
  Xi ← Tabular_iloc X i;
  let df := to_pd Xi in
  feature_values ←
    mapM (λ j, name ← py_index columns (Z.of_nat j); df_value df name) valid_indices;
  feature_names ← mapM (λ j, py_index columns (Z.of_nat j)) valid_indices;
  if is_classification self then
    label ← match y with
            | Some l => py_index l (Z.of_nat i)
            | None => Raise (TypeError "'NoneType' object is not subscriptable")
            end;
    per_class ← nd_getitem shap_values label;
    importance_scores ← nd_getitem per_class (Z.of_nat i);
    restricted ← nd_take importance_scores valid_indices;
    FeatureImportance_add explanations df (Some label)
      feature_names feature_values restricted true
  else
    row ← nd_getitem shap_values (Z.of_nat i);
    restricted ← nd_take row valid_indices;
    FeatureImportance_add explanations df None
      feature_names feature_values restricted true.

(** [for i, instance in enumerate(instances)]. *)
Fixpoint explain_loop (body : FeatureImportance → nat → result FeatureImportance)
    (i : nat) (instances : Instances) (explanations : FeatureImportance)
    : result FeatureImportance :=
  match instances with
  | [] => Ok explanations
  | _ :: rest =>
      explanations' ← body explanations i;
      explain_loop body (S i) rest explanations'
  end.

Section Explain.

(** What [explain] accepts as [X], and the helpers of the data module
    that turn it into a table without its target column; each may raise. *)
Variable RawData : Type.
Variable to_tabular : TabularExplainer → RawData → result Tabular.
Variable remove_target_column : Tabular → result Tabular.

(** Line 75: the table [explain] works on. *)
Definition table_of (self : ShapTabular) (X : RawData) : result Tabular :=
  T ← to_tabular (base self) X; remove_target_column T.

(** Lines 75 and 77: the transformed instances. *)
Definition instances_of (self : ShapTabular) (X : RawData) : result Instances :=
  T ← table_of self X; transformer (base self) T.

Definition explain (self : ShapTabular) (X : RawData) (y : option labels)
    (kw : kwargs) : M FeatureImportance :=
  X ← lift (table_of self X);
  let explanations := FeatureImportance_new (mode (base self)) in
  instances ← lift (transformer (base self) X);
  sv ← call (EvShapValues instances) (shap_values (explainer self) instances kw);
  y ← resolve_labels self instances y;
  let valid := valid_indices self in
  lift (explain_loop (explain_instance self X sv y valid) 0 instances explanations).

End Explain.

(** ** A small classifier and a small regressor, for evaluation *)

Module Demo.

Definition row0 : Row := [("a", PInt 1); ("b", PStr "x"); ("c", PInt 3)].
Definition row1 : Row := [("a", PInt 4); ("b", PStr "y"); ("c", PInt 6)].

Definition X : Tabular :=
  {| tab_rows := [row0; row1]; tab_categorical_columns := ["b"];
     tab_target_column := None |}.

Definition encode (r : Row) : list Q :=
  (λ c, match c.2 with PInt z => inject_Z z | PFloat q => q | PStr _ => 0%Q end) <$> r.

Definition vec (l : list Z) : ndarray := Array ((λ z, Scalar (inject_Z z)) <$> l).

(** Two classes, two instances, three features. *)
Definition class_values : ndarray :=
  Array [Array [vec [1; 7; -5]%Z; vec [2; 0; 2]%Z];
         Array [vec [-1; -7; 5]%Z; vec [-2; 0; -2]%Z]].

Definition reg_values : ndarray := Array [vec [1; 7; -5]%Z; vec [2; 0; 2]%Z].

Definition probabilities (inst : Instances) : result (list (list Q)) :=
  Ok ((λ _, [(1#4)%Q; (1#2)%Q; (1#2)%Q]) <$> inst).

Definition classifier_base : TabularExplainer :=
  {| mode := "classification"; data := encode <$> [row0; row1];
     target_column := None; feature_columns := ["a"; "b"; "c"];
     transformer := λ t, Ok (encode <$> tab_rows t);
     predict_fn := probabilities |}.

Definition classifier (ignored : list string) : ShapTabular :=
  {| base := classifier_base; ignored_features := list_to_set ignored;
     explainer := {| shap_values := λ _ _, Ok class_values |} |}.

Definition regressor_base : TabularExplainer :=
  {| mode := "regression"; data := encode <$> [row0; row1];
     target_column := None; feature_columns := ["a"; "b"; "c"];
     transformer := λ t, Ok (encode <$> tab_rows t);
     predict_fn := λ inst, Ok ((λ r, [foldr Qplus 0%Q r]) <$> inst) |}.

Definition regressor (ignored : list string) : ShapTabular :=
  {| base := regressor_base; ignored_features := list_to_set ignored;
     explainer := {| shap_values := λ _ _, Ok reg_values |} |}.

Definition run (self : ShapTabular) (y : option labels) :=
  explain Tabular (λ _ t, Ok t) (λ t, Ok t) self X y ∅ [].

(** A training table with a target column [y], and stand-ins for the
    base constructor and the two [shap] entry points. *)
Definition labelled : Tabular :=
  {| tab_rows := [row0 ++ [("y", PInt 0)]; row1 ++ [("y", PInt 1)]];
     tab_categorical_columns := ["b"]; tab_target_column := Some "y" |}.

Definition base_init (td : Tabular) (pf : Instances → result (list (list Q)))
    (m : string) (kw : kwargs) : result TabularExplainer :=
  Ok {| mode := m; data := encode <$> [row0; row1];
        target_column := tab_target_column td;
        feature_columns := ["a"; "b"; "c"];
        transformer := λ t, Ok (encode <$> tab_rows t);
        predict_fn := pf |}.

Definition sample (d : Instances) (n : pyval) : result Instances :=
  match n with
  | PInt z => Ok (take (Z.to_nat z) d)
  | _ => Raise (TypeError "nsamples must be an integer")
  end.

Definition kernel (pf : Instances → result (list (list Q))) (d : Instances)
    (link : string) (kw : kwargs) : result KernelExplainer :=
  Ok {| shap_values := λ _ _, Ok class_values |}.

Definition construct (td : Tabular) (ignored : option (list string)) :=
  ShapTabular_init _ base_init sample kernel td probabilities
    "classification" ignored ∅ [].

End Demo.

(** ** Further small inputs: an empty table and a column the data lack *)

Module Cases.

(** A table of numeric columns only, without rows, and a regressor on
    two numeric features. *)
Definition no_rows : Tabular :=
  {| tab_rows := []; tab_categorical_columns := [];
     tab_target_column := None |}.

Definition numeric_base : TabularExplainer :=
  {| mode := "regression";
     data := Demo.encode <$> [[("a", PInt 1); ("c", PInt 3)]];
     target_column := None; feature_columns := ["a"; "c"];
     transformer := λ t, Ok (Demo.encode <$> tab_rows t);
     predict_fn := λ inst, Ok ((λ r, [foldr Qplus 0%Q r]) <$> inst) |}.

Definition numeric_regressor : ShapTabular :=
  {| base := numeric_base; ignored_features := ∅;
     explainer := {| shap_values := λ _ _, Ok (Array []) |} |}.

(** A classifier whose attributor raises. *)
Definition failing_attributor : ShapTabular :=
  {| base := Demo.classifier_base; ignored_features := ∅;
     explainer := {| shap_values := λ _ _, Raise ValueError |} |}.

(** A classifier whose transformer rejects every table. *)
Definition failing_transformer : ShapTabular :=
  {| base :=
       {| mode := "classification";
          data := Demo.encode <$> [Demo.row0; Demo.row1];
          target_column := None; feature_columns := ["a"; "b"; "c"];
          transformer := λ _, Raise ValueError;
          predict_fn := Demo.probabilities |};
     ignored_features := ∅;
     explainer := {| shap_values := λ _ _, Ok Demo.class_values |} |}.

(** A classifier whose feature columns name [d], absent from the rows. *)
Definition stale_base : TabularExplainer :=
  {| mode := "classification"; data := Demo.encode <$> [Demo.row0; Demo.row1];
     target_column := None; feature_columns := ["a"; "d"; "c"];
     transformer := λ t, Ok (Demo.encode <$> tab_rows t);
     predict_fn := Demo.probabilities |}.

Definition stale (ignored : list string) : ShapTabular :=
  {| base := stale_base; ignored_features := list_to_set ignored;
     explainer := {| shap_values := λ _ _, Ok Demo.class_values |} |}.

(** A mode string that is neither of the two documented ones. *)
Definition capitalised_base : TabularExplainer :=
  {| mode := "Classification"; data := Demo.encode <$> [Demo.row0; Demo.row1];
     target_column := None; feature_columns := ["a"; "b"; "c"];
     transformer := λ t, Ok (Demo.encode <$> tab_rows t);
     predict_fn := Demo.probabilities |}.

Definition capitalised : ShapTabular :=
  {| base := capitalised_base; ignored_features := ∅;
     explainer := {| shap_values := λ _ _, Ok Demo.reg_values |} |}.

(** A sampler that rejects every request. *)
Definition failing_sample (d : Instances) (n : pyval) : result Instances :=
  Raise ValueError.

Definition run_on (self : ShapTabular) (X : Tabular) (y : option labels) :=
  explain Tabular (λ _ t, Ok t) (λ t, Ok t) self X y ∅ [].

Definition construct_with (sample : Instances → pyval → result Instances)
    (ignored : option (list string)) (kw : kwargs) :=
  ShapTabular_init _ Demo.base_init sample Demo.kernel Demo.labelled
    Demo.probabilities "classification" ignored kw [].

End Cases.

(** ** Notions used to state what [explain] returns *)

(** Whether the feature at position [j] of [columns] is kept, that is,
    exists and is not ignored. *)
Definition kept (columns : list string) (ignored : gset string) (j : nat) : bool :=
  match columns !! j with
  | Some f => bool_decide (f ∉ ignored)
  | None => false
  end.

(** The row of attribution scores explained for instance [i]:
    [shap_values[label][i]] under a label, [shap_values[i]] without. *)
Definition importance_row (sv : ndarray) (lbl : option Z) (i : nat) : result ndarray :=
  match lbl with
  | Some label => per_class ← nd_getitem sv label; nd_getitem per_class (Z.of_nat i)
  | None => nd_getitem sv (Z.of_nat i)
  end.

(** [t] is the name, the value in [row] and the score in [imp] of the
    feature at position [j]. *)
Definition triple_at (columns : list string) (row : Row) (imp : list ndarray)
    (j : nat) (t : Triple) : Prop :=
  columns !! j = Some t.1.1 ∧
  df_value {| df_rows := [row] |} t.1.1 = Ok t.1.2 ∧
  imp !! j = Some (Scalar t.2).

(** The record [add] stores for the given triples when [sort] is set. *)
Definition record_of (row : Row) (lbl : option Z) (triples : list Triple) : Explanation :=
  let s := sort_desc triples in
  {| instance := {| df_rows := [row] |}; target_label := lbl;
     features := s.*1.*1; values := s.*1.*2; scores := s.*2 |}.

(** Descending absolute score. *)
Definition by_abs_desc (a b : Triple) : Prop := (abs_score b <= abs_score a)%Q.

(** A record lists the kept features in the order of the feature columns. *)
Definition in_original_order (self : ShapTabular) (rec : Explanation) : Prop :=
  features rec =
    filter (λ f, f ∉ ignored_features self) (feature_columns (base self)).

(** The shapes under which pass [i] of the loop cannot raise: row [i]
    exists, a label is there when one is needed, the attributor's output
    has a row of scores for it, and every kept feature has a cell in the
    row and a number among the scores. *)
Definition well_shaped (self : ShapTabular) (X : Tabular) (sv : ndarray)
    (y : option (list Z)) (i : nat) : Prop :=
  ∃ row lbl imp,
    tab_rows X !! i = Some row ∧
    (if is_classification self
     then ∃ ys label, y = Some ys ∧ ys !! i = Some label ∧ lbl = Some label
     else lbl = None) ∧
    importance_row sv lbl i = Ok (Array imp) ∧
    ∀ j f, j ∈ valid_indices self → feature_columns (base self) !! j = Some f →
      ∃ v q, df_value {| df_rows := [row] |} f = Ok v ∧ imp !! j = Some (Scalar q).


(** ** Construction *)

Section InitFacts.

Variable PredictFunction : Type.
Variable TabularExplainer_init :
  Tabular → PredictFunction → string → kwargs → result TabularExplainer.
Variable shap_sample : Instances → pyval → result Instances.
Variable shap_KernelExplainer :
  (Instances → result (list (list Q))) → Instances → string → kwargs →
  result KernelExplainer.

(** What a successful construction leaves behind. *)
Lemma init_Ok_inv td pf m ign kw tr e tr' :
  ShapTabular_init PredictFunction TabularExplainer_init shap_sample
       shap_KernelExplainer td pf m ign kw tr = (Ok e, tr') →
  ∃ self,
    TabularExplainer_init td pf m kw = Ok self ∧
    base e = self ∧
    ignored_features e =
      match ign with Some l => list_to_set l | None => ∅ end ∧
    match target_column self with
    | Some t => ∃ l, ign = Some l ∧ t ∉ l
    | None => True
    end.
Proof.
  unfold ShapTabular_init, mbind, M_bind, lift.
  destruct (TabularExplainer_init td pf m kw) as [self|]; [|done].
  intros H. exists self. split; [done|].
  destruct (target_column self) as [t|].
  - destruct ign as [l|]; simpl in H; [|done].
    unfold py_assert in H. case_bool_decide; simpl in H; [|done].
    destruct (background _ _ _ _) as [[bg|] ?]; [|done].
    unfold call in H. destruct (shap_KernelExplainer _ _ _ _); [|done].
    inversion H; subst; simpl. eauto.
  - simpl in H.
    destruct (background _ _ _ _) as [[bg|] ?]; [|done].
    unfold call in H. destruct (shap_KernelExplainer _ _ _ _); [|done].
    inversion H; subst; simpl. done.
Qed.

(** Lines 55-58: without [nsamples] the background handed to
    [shap.KernelExplainer] is the explainer's own data, and
    [shap.sample] is not called. *)
Lemma background_default self kw tr :
  kw !! "nsamples" = None →
  background shap_sample self kw tr = (Ok (data self), tr).
Proof. intros H. unfold background. by rewrite H. Qed.

(** Lines 55-58: with [nsamples] the background is whatever
    [shap.sample] returns for the explainer's data and that value. *)
Lemma background_sampled self kw n tr :
  kw !! "nsamples" = Some n →
  background shap_sample self kw tr =
    (shap_sample (data self) n, tr ++ [EvSample (data self) n]).
Proof. intros H. unfold background. by rewrite H. Qed.

(** C2. When the base constructor has found a target column [t], a list
    of ignored features that contains [t] makes the constructor fail
    with the assertion of lines 52-53, before [shap.sample] or
    [shap.KernelExplainer] is called; and every explainer that the
    constructor does return has its target column outside its ignored
    set, so no call of [explain] can meet the violation. *)
Theorem target_in_ignored_fails_at_construction td pf m kw self t tr :
  TabularExplainer_init td pf m kw = Ok self →
  target_column self = Some t →
  (∀ l, t ∈ l →
     ShapTabular_init PredictFunction TabularExplainer_init shap_sample
       shap_KernelExplainer td pf m (Some l) kw tr =
       (Raise (AssertionError (target_column_msg t)), tr)) ∧
  (∀ ign e tr',
     ShapTabular_init PredictFunction TabularExplainer_init shap_sample
       shap_KernelExplainer td pf m ign kw tr = (Ok e, tr') →
     target_column (base e) = Some t ∧ t ∉ ignored_features e).
Proof.
  intros Hsuper Ht. split.
  - intros l Hin.
    unfold ShapTabular_init, mbind, M_bind, lift.
    rewrite Hsuper, Ht. simpl.
    rewrite bool_decide_eq_false_2 by (intros Hn; by apply Hn).
    done.
  - intros ign e tr' H.
    apply init_Ok_inv in H as (self' & Hs & Hb & Hi & Hc).
    assert (self' = self) as -> by congruence.
    rewrite Ht in Hc. destruct Hc as (l & -> & Hnin).
    rewrite Hb, Hi. split; [done|]. by rewrite elem_of_list_to_set.
Qed.

(** C10. With [ignored_features] left as [None] and a target column
    present, the membership test of line 52 is applied to [None] and the
    constructor raises [TypeError]; so a constructor call with
    [ignored_features = None] that returns an explainer had no target
    column. *)
Theorem none_ignored_with_target_raises td pf m kw tr :
  (∀ self t,
     TabularExplainer_init td pf m kw = Ok self →
     target_column self = Some t →
     ShapTabular_init PredictFunction TabularExplainer_init shap_sample
       shap_KernelExplainer td pf m None kw tr =
       (Raise (TypeError "argument of type 'NoneType' is not iterable"), tr)) ∧
  (∀ e tr',
     ShapTabular_init PredictFunction TabularExplainer_init shap_sample
       shap_KernelExplainer td pf m None kw tr = (Ok e, tr') →
     target_column (base e) = None).
Proof.
  split.
  - intros self t Hsuper Ht.
    unfold ShapTabular_init, mbind, M_bind, lift.
    by rewrite Hsuper, Ht.
  - intros e tr' H.
    apply init_Ok_inv in H as (self & Hs & Hb & _ & Hc).
    rewrite Hb. destruct (target_column self); [|done].
    by destruct Hc as (l & ? & _).
Qed.

End InitFacts.

(** ** Indexing and mapping inside [result] *)

Lemma py_index_nat {A} (l : list A) (i : nat) (x : A) :
  py_index l (Z.of_nat i) = Ok x ↔ l !! i = Some x.
Proof.
  unfold py_index.
  assert ((Z.of_nat i <? 0)%Z = false) as -> by (apply Z.ltb_ge; lia).
  rewrite Nat2Z.id.
  destruct (l !! i) as [a|] eqn:E.
  - apply lookup_lt_Some in E as Hlt.
    rewrite andb_true_intro
      by (split; [apply Z.leb_le | apply Z.ltb_lt]; lia).
    split; intros; simplify_eq; done.
  - destruct (_ && _); split; intros; simplify_eq.
Qed.

Lemma mapM_Ok {A B} (f : A → result B) (l : list A) (k : list B) :
  mapM f l = Ok k ↔ Forall2 (λ x y, f x = Ok y) l k.
Proof.
  revert k. induction l as [|x l IH]; intros k; simpl.
  - split.
    + intros [= <-]. constructor.
    + by inversion 1.
  - unfold mbind, result_bind.
    destruct (f x) as [y|] eqn:Hx.
    + destruct (mapM f l) as [k'|] eqn:Hl.
      * split.
        -- intros [= <-]. constructor; [done|]. by apply IH.
        -- inversion 1 as [|? ? ? k'' Hy Hk]; subst.
           apply IH in Hk. unfold mret, result_ret. congruence.
      * split; [done|].
        inversion 1 as [|? ? ? k'' Hy Hk]; subst. by apply IH in Hk.
    + split; [done|]. inversion 1; congruence.
Qed.

Lemma mapM_Ok_length {A B} (f : A → result B) (l : list A) (k : list B) :
  mapM f l = Ok k → length k = length l.
Proof. rewrite mapM_Ok. intros H. symmetry. by eapply Forall2_length. Qed.

(** ** The order [add] gives to the triples *)

Lemma insert_desc_perm t l : insert_desc t l ≡ₚ t :: l.
Proof.
  induction l as [|u l IH]; simpl; [done|].
  destruct (Qle_bool _ _); [done|].
  rewrite IH. apply Permutation_swap.
Qed.

Lemma sort_desc_perm l : sort_desc l ≡ₚ l.
Proof.
  induction l as [|t l IH]; simpl; [done|].
  rewrite insert_desc_perm. by f_equiv.
Qed.

Lemma insert_desc_sorted t l :
  StronglySorted by_abs_desc l → StronglySorted by_abs_desc (insert_desc t l).
Proof.
  induction l as [|u l IH]; simpl; intros Hs.
  - repeat constructor.
  - apply StronglySorted_cons in Hs as [Hall Hs].
    destruct (Qle_bool (abs_score u) (abs_score t)) eqn:E.
    + apply Qle_bool_iff in E.
      apply StronglySorted_cons. split.
      * constructor; [done|].
        eapply Forall_impl; [exact Hall|].
        unfold by_abs_desc. intros v Hv. by eapply Qle_trans.
      * apply StronglySorted_cons. done.
    + assert (abs_score t <= abs_score u)%Q as Hle.
      { destruct (Qlt_le_dec (abs_score t) (abs_score u)) as [Hlt|Hge].
        - by apply Qlt_le_weak.
        - apply Qle_bool_iff in Hge. congruence. }
      apply StronglySorted_cons. split; [|by apply IH].
      rewrite insert_desc_perm. by constructor.
Qed.

Lemma sort_desc_sorted l : StronglySorted by_abs_desc (sort_desc l).
Proof.
  induction l as [|t l IH]; simpl; [constructor|].
  by apply insert_desc_sorted.
Qed.

(** ** The kept positions *)

Lemma filter_ext_in {A} (P Q : A → Prop) `{!∀ x, Decision (P x)}
    `{!∀ x, Decision (Q x)} (l : list A) :
  (∀ x, x ∈ l → P x ↔ Q x) → filter P l = filter Q l.
Proof.
  induction l as [|x l IH]; intros Hext; [done|].
  rewrite !filter_cons.
  destruct (decide (P x)) as [HP|HP], (decide (Q x)) as [HQ|HQ].
  - f_equal. apply IH. intros y Hy. apply Hext. by right.
  - exfalso. apply HQ, Hext; [left|done].
  - exfalso. apply HP, Hext; [left|done].
  - apply IH. intros y Hy. apply Hext. by right.
Qed.

Lemma filter_all {A} (P : A → Prop) `{!∀ x, Decision (P x)} (l : list A) :
  (∀ x, x ∈ l → P x) → filter P l = l.
Proof.
  induction l as [|x l IH]; intros Hall; [done|].
  rewrite filter_cons_True by (apply Hall; left).
  f_equal. apply IH. intros y Hy. apply Hall. by right.
Qed.

Lemma kept_app_l columns f ignored j :
  j < length columns → kept (columns ++ [f]) ignored j = kept columns ignored j.
Proof. intros Hj. unfold kept. by rewrite lookup_app_l. Qed.

Lemma kept_app_last columns f ignored :
  kept (columns ++ [f]) ignored (length columns) = bool_decide (f ∉ ignored).
Proof. unfold kept. by rewrite list_lookup_middle. Qed.

Lemma enumerate_filter_kept (ignored : gset string) (columns : list string) :
  (filter (λ p : nat * string, p.2 ∉ ignored) (imap pair columns)).*1 =
  filter (λ j, kept columns ignored j) (seq 0 (length columns)).
Proof.
  induction columns as [|f columns IH] using rev_ind; [done|].
  rewrite imap_app, length_app, seq_app, !filter_app, fmap_app, IH. simpl.
  f_equal.
  - apply filter_ext_in. intros j Hj. apply elem_of_seq in Hj.
    rewrite kept_app_l by lia. done.
  - rewrite Nat.add_0_r, !filter_cons, !filter_nil, kept_app_last. simpl.
    destruct (decide (f ∉ ignored)) as [Hf|Hf].
    + rewrite decide_True by (by apply bool_decide_pack). done.
    + rewrite decide_False; [done|]. by intros ?%bool_decide_unpack.
Qed.

Lemma kept_names (ignored : gset string) (columns : list string) :
  (λ j, columns !! j) <$> filter (λ j, kept columns ignored j) (seq 0 (length columns)) =
  Some <$> filter (λ f, f ∉ ignored) columns.
Proof.
  induction columns as [|f columns IH] using rev_ind; [done|].
  rewrite length_app, seq_app, !filter_app, !fmap_app. simpl.
  f_equal.
  - rewrite <- IH.
    rewrite (filter_ext_in (λ j, kept (columns ++ [f]) ignored j)
               (λ j, kept columns ignored j)).
    + apply list_fmap_ext. intros i j Hj.
      apply list_elem_of_lookup_2, list_elem_of_filter in Hj as [_ Hj].
      apply elem_of_seq in Hj. apply lookup_app_l. lia.
    + intros j Hj. apply elem_of_seq in Hj. rewrite kept_app_l by lia. done.
  - rewrite !filter_cons, !filter_nil, kept_app_last.
    destruct (decide (f ∉ ignored)) as [Hf|Hf].
    + rewrite decide_True by (by apply bool_decide_pack). simpl.
      by rewrite list_lookup_middle.
    + rewrite decide_False; [done|]. by intros ?%bool_decide_unpack.
Qed.

(** Lines 95-98 select the kept positions, in increasing order; the
    shortcut taken for an empty ignored set selects the same. *)
Lemma valid_indices_kept (self : ShapTabular) :
  valid_indices self =
  filter (λ j, kept (feature_columns (base self)) (ignored_features self) j)
         (seq 0 (length (feature_columns (base self)))).
Proof.
  unfold valid_indices. case_bool_decide as Hsize.
  - apply size_empty_inv, leibniz_equiv in Hsize. rewrite Hsize.
    symmetry. apply filter_all. intros j Hj. apply elem_of_seq in Hj.
    unfold kept.
    destruct (lookup_lt_is_Some_2 (feature_columns (base self)) j) as [f ->];
      [lia|].
    apply bool_decide_pack, not_elem_of_empty.
  - apply enumerate_filter_kept.
Qed.

(** ** One pass of the loop *)

Lemma bind_Ok {A B} (r : result A) (k : A → result B) (b : B) :
  r ≫= k = Ok b ↔ ∃ a, r = Ok a ∧ k a = Ok b.
Proof.
  unfold mbind, result_bind. destruct r as [a|e].
  - split; [eauto|]. by intros (a' & [= <-] & ?).
  - split; [done|]. by intros (a' & ? & ?).
Qed.

Lemma triples_of_mapM columns row imp valid names vals items sc :
  mapM (λ j, name ← py_index columns (Z.of_nat j);
             df_value {| df_rows := [row] |} name) valid = Ok vals →
  mapM (λ j, py_index columns (Z.of_nat j)) valid = Ok names →
  mapM (λ j, py_index imp (Z.of_nat j)) valid = Ok items →
  mapM py_float items = Ok sc →
  Forall2 (triple_at columns row imp) valid (zip (zip names vals) sc).
Proof.
  rewrite !mapM_Ok. intros Hv Hn Hi Hs.
  revert vals items sc Hv Hi Hs.
  induction Hn as [|j name valid names Hj Hn IH]; intros vals items sc Hv Hi Hs.
  - inversion Hv; subst. inversion Hi; subst. inversion Hs; subst. constructor.
  - inversion Hv as [|? v ? vals' Hjv Hv']; subst.
    inversion Hi as [|? it ? items' Hji Hi']; subst.
    inversion Hs as [|? q ? sc' Hq Hs']; subst.
    simpl. constructor; [|by eapply IH].
    unfold triple_at; simpl.
    unfold mbind, result_bind in Hjv. rewrite Hj in Hjv.
    apply py_index_nat in Hj, Hji.
    destruct it; simpl in Hq; [|done]. by simplify_eq.
Qed.

Lemma explain_instance_inv self X sv y valid exps i exps' :
  explain_instance self X sv y valid exps i = Ok exps' →
  ∃ row lbl imp triples,
    tab_rows X !! i = Some row ∧
    (if is_classification self
     then ∃ ys label, y = Some ys ∧ ys !! i = Some label ∧ lbl = Some label
     else lbl = None) ∧
    importance_row sv lbl i = Ok (Array imp) ∧
    Forall2 (triple_at (feature_columns (base self)) row imp) valid triples ∧
    exps' = {| fi_mode := fi_mode exps;
               explanations := explanations exps ++ [record_of row lbl triples] |}.
Proof.
  unfold explain_instance. intros H.
  apply bind_Ok in H as (Xi & HXi & H).
  apply bind_Ok in HXi as (row & Hrow & [= <-]).
  apply py_index_nat in Hrow.
  unfold to_pd in H; simpl in H.
  apply bind_Ok in H as (vals & Hvals & H).
  apply bind_Ok in H as (names & Hnames & H).
  assert (∀ lbl impr,
    importance_row sv lbl i = Ok impr →
    (restricted ← nd_take impr valid;
     FeatureImportance_add exps {| df_rows := [row] |} lbl names vals
       restricted true) = Ok exps' →
    ∃ imp triples,
      importance_row sv lbl i = Ok (Array imp) ∧
      Forall2 (triple_at (feature_columns (base self)) row imp) valid triples ∧
      exps' = {| fi_mode := fi_mode exps;
                 explanations := explanations exps ++ [record_of row lbl triples] |})
    as Hadd.
  { intros lbl impr Himp Hk.
    apply bind_Ok in Hk as (restricted & Htake & Hk).
    destruct impr as [|imp]; [done|]. simpl in Htake.
    unfold fmap, result_fmap in Htake.
    destruct (mapM (λ j, py_index imp (Z.of_nat j)) valid) as [items|] eqn:Hitems;
      [|done].
    injection Htake as <-.
    unfold FeatureImportance_add in Hk.
    apply bind_Ok in Hk as (sc & Hsc & [= <-]). simpl in Hsc.
    exists imp, (zip (zip names vals) sc). split; [done|]. split; [|done].
    by eapply triples_of_mapM. }
  destruct (is_classification self).
  - apply bind_Ok in H as (label & Hl & H).
    destruct y as [ys|]; [|done]. apply py_index_nat in Hl.
    apply bind_Ok in H as (cls & Hc & H).
    apply bind_Ok in H as (impr & Hr & H).
    destruct (Hadd (Some label) impr) as (imp & triples & ? & ? & ?).
    + simpl. apply bind_Ok. eauto.
    + exact H.
    + exists row, (Some label), imp, triples. eauto 10.
  - apply bind_Ok in H as (impr & Hr & H).
    destruct (Hadd None impr) as (imp & triples & ? & ? & ?); [done|exact H|].
    exists row, None, imp, triples. eauto 10.
Qed.

(** ** The whole loop *)

Lemma explain_loop_inv (body : FeatureImportance → nat → result FeatureImportance)
    (P : nat → Explanation → Prop) :
  (∀ e i e', body e i = Ok e' →
     ∃ rec, e' = {| fi_mode := fi_mode e;
                    explanations := explanations e ++ [rec] |} ∧ P i rec) →
  ∀ instances i e0 r,
    explain_loop body i instances e0 = Ok r →
    ∃ recs,
      r = {| fi_mode := fi_mode e0; explanations := explanations e0 ++ recs |} ∧
      length recs = length instances ∧
      ∀ k rec, recs !! k = Some rec → P (i + k) rec.
Proof.
  intros Hbody instances.
  induction instances as [|inst rest IH]; intros i e0 r H; simpl in H.
  - injection H as <-. exists []. rewrite app_nil_r.
    split; [by destruct e0|]. split; [done|]. intros k rec Hk. done.
  - apply bind_Ok in H as (e1 & H1 & H).
    apply Hbody in H1 as (rec1 & -> & HP).
    apply IH in H as (recs & -> & Hlen & Hrecs). simpl.
    exists (rec1 :: recs). rewrite <- app_assoc. simpl.
    split; [done|]. split; [by rewrite Hlen|].
    intros [|k] rec Hk; simpl in Hk.
    + injection Hk as <-. by rewrite Nat.add_0_r.
    + rewrite Nat.add_succ_r. by apply Hrecs.
Qed.

(** ** When the loop returns *)

Lemma mapM_is_Ok {A B} (f : A → result B) (l : list A) :
  (∀ x, x ∈ l → ∃ y, f x = Ok y) → ∃ k, mapM f l = Ok k.
Proof.
  induction l as [|x l IH]; intros Hall; simpl.
  - by eexists.
  - destruct (Hall x) as [y Hy]; [left|].
    destruct IH as [k Hk]; [intros z Hz; apply Hall; by right|].
    exists (y :: k). apply bind_Ok. exists y. split; [done|].
    apply bind_Ok. by exists k.
Qed.

Lemma valid_indices_lookup self j :
  j ∈ valid_indices self → ∃ f, feature_columns (base self) !! j = Some f.
Proof.
  rewrite valid_indices_kept. intros [_ Hj%elem_of_seq]%list_elem_of_filter.
  apply lookup_lt_is_Some_2. lia.
Qed.

Lemma explain_instance_returns self X sv y exps i :
  well_shaped self X sv y i →
  ∃ exps', explain_instance self X sv y (valid_indices self) exps i = Ok exps'.
Proof.
  intros (row & lbl & imp & Hrow & Hlbl & Himp & Hcells).
  unfold explain_instance, Tabular_iloc.
  apply py_index_nat in Hrow. rewrite Hrow. simpl. unfold to_pd; simpl.
  destruct (mapM_is_Ok
              (λ j, name ← py_index (feature_columns (base self)) (Z.of_nat j);
                    df_value {| df_rows := [row] |} name) (valid_indices self))
    as [vals ->].
  { intros j Hj. destruct (valid_indices_lookup self j Hj) as [f Hf].
    destruct (Hcells j f Hj Hf) as (v & q & Hv & _).
    exists v. apply bind_Ok. exists f. by rewrite py_index_nat. }
  destruct (mapM_is_Ok
              (λ j, py_index (feature_columns (base self)) (Z.of_nat j))
              (valid_indices self)) as [names ->].
  { intros j Hj. destruct (valid_indices_lookup self j Hj) as [f Hf].
    exists f. by rewrite py_index_nat. }
  simpl.
  destruct (mapM_is_Ok (λ j, py_index imp (Z.of_nat j)) (valid_indices self))
    as [items Hitems].
  { intros j Hj. destruct (valid_indices_lookup self j Hj) as [f Hf].
    destruct (Hcells j f Hj Hf) as (v & q & _ & Hq).
    exists (Scalar q). by rewrite py_index_nat. }
  destruct (mapM_is_Ok py_float items) as [sc Hsc].
  { intros it Hit. apply mapM_Ok in Hitems.
    apply list_elem_of_lookup in Hit as [k Hk].
    destruct (Forall2_lookup_r _ _ _ _ _ Hitems Hk) as (j & Hj & Hjit).
    apply py_index_nat in Hjit.
    apply list_elem_of_lookup_2 in Hj.
    destruct (valid_indices_lookup self j Hj) as [f Hf].
    destruct (Hcells j f Hj Hf) as (v & q & _ & Hq).
    exists q. rewrite Hq in Hjit. by injection Hjit as <-. }
  assert (∀ l,
    importance_row sv l i = Ok (Array imp) →
    ∃ exps',
      (restricted ← nd_take (Array imp) (valid_indices self);
       FeatureImportance_add exps {| df_rows := [row] |} l names vals
         restricted true) = Ok exps') as Hadd.
  { intros l _. eexists. apply bind_Ok. simpl. rewrite Hitems. simpl.
    eexists. split; [done|].
    unfold FeatureImportance_add. apply bind_Ok. simpl. eauto. }
  destruct (is_classification self).
  - destruct Hlbl as (ys & label & -> & Hl & ->).
    apply py_index_nat in Hl. rewrite Hl. simpl.
    simpl in Himp. apply bind_Ok in Himp as (cls & Hcls & Hscores).
    rewrite Hcls. simpl. rewrite Hscores. simpl.
    apply Hadd. simpl. apply bind_Ok. eauto.
  - subst lbl. simpl in Himp. rewrite Himp. simpl. by apply Hadd.
Qed.

Lemma explain_loop_returns (body : FeatureImportance → nat → result FeatureImportance)
    (instances : Instances) :
  ∀ i e0,
    (∀ e k, i ≤ k < i + length instances → ∃ e', body e k = Ok e') →
    ∃ r, explain_loop body i instances e0 = Ok r.
Proof.
  induction instances as [|inst rest IH]; intros i e0 Hbody; simpl.
  - by eexists.
  - destruct (Hbody e0 i) as [e1 He1]; [simpl; lia|].
    rewrite He1. simpl. apply IH.
    intros e k Hk. apply Hbody. simpl. lia.
Qed.

(** ** np.argmax *)

Lemma argmax_from_spec (l pre : list Q) (best_i : nat) (best : Q) :
  pre !! best_i = Some best →
  (∀ j q, pre !! j = Some q → (q <= best)%Q) →
  (∀ j q, j < best_i → pre !! j = Some q → (q < best)%Q) →
  ∃ p, (pre ++ l) !! argmax_from best_i best (length pre) l = Some p ∧
       (∀ j q, (pre ++ l) !! j = Some q → (q <= p)%Q) ∧
       (∀ j q, j < argmax_from best_i best (length pre) l →
               (pre ++ l) !! j = Some q → (q < p)%Q).
Proof.
  revert pre best_i best.
  induction l as [|x l IH]; intros pre best_i best Hbest Hmax Hfirst; simpl.
  - rewrite app_nil_r. eauto.
  - assert (length (pre ++ [x]) = S (length pre)) as Hlen
      by (rewrite length_app; simpl; lia).
    rewrite (cons_middle x pre l), app_assoc, <- Hlen.
    destruct (Qle_bool x best) eqn:E.
    + apply Qle_bool_iff in E. apply IH.
      * apply lookup_app_l_Some. done.
      * intros j q [Hj|[_ Hj]]%lookup_app_Some; [by eapply Hmax|].
        destruct (j - length pre) as [|[|]]; simpl in Hj; by simplify_eq.
      * intros j q Hlt [Hj|[Hge _]]%lookup_app_Some; [by eapply Hfirst|].
        apply lookup_lt_Some in Hbest. lia.
    + assert (best < x)%Q as Hlt.
      { destruct (Qlt_le_dec best x) as [?|Hge]; [done|].
        apply Qle_bool_iff in Hge. congruence. }
      apply IH.
      * by apply list_lookup_middle.
      * intros j q [Hj|[_ Hj]]%lookup_app_Some.
        -- apply Qlt_le_weak. eapply Qle_lt_trans; [by eapply Hmax|done].
        -- destruct (j - length pre) as [|[|]]; simpl in Hj; simplify_eq.
           apply Qle_refl.
      * intros j q Hj [Hq|[Hge _]]%lookup_app_Some; [|lia].
        eapply Qle_lt_trans; [by eapply Hmax|done].
Qed.

(** [np.argmax] returns a position of the maximum, and every earlier
    position holds a strictly smaller value. *)
Lemma np_argmax_first_max (row : list Q) (k : nat) :
  np_argmax row = Ok k →
  ∃ p, row !! k = Some p ∧
       (∀ j q, row !! j = Some q → (q <= p)%Q) ∧
       (∀ j q, j < k → row !! j = Some q → (q < p)%Q).
Proof.
  destruct row as [|x l]; simpl; [done|]. intros [= <-].
  apply (argmax_from_spec l [x] 0 x).
  - done.
  - intros [|j] q Hj; simpl in Hj; simplify_eq. apply Qle_refl.
  - intros j q Hj. lia.
Qed.

Lemma np_argmax_axis1_Ok (scores : list (list Q)) (ys : list Z) :
  np_argmax_axis1 scores = Ok ys →
  Forall2 (λ row y, ∃ k, np_argmax row = Ok k ∧ y = Z.of_nat k) scores ys.
Proof.
  unfold np_argmax_axis1, fmap at 1, result_fmap.
  destruct (mapM np_argmax scores) as [ks|] eqn:E; [|done].
  intros [= <-]. apply mapM_Ok in E.
  apply Forall2_fmap_r. eapply Forall2_impl; [exact E|]. eauto.
Qed.

(** ** explain *)

Section ExplainFacts.

Variable RawData : Type.
Variable to_tabular : TabularExplainer → RawData → result Tabular.
Variable remove_target_column : Tabular → result Tabular.

Local Abbreviation table self X :=
  (table_of RawData to_tabular remove_target_column self X).
Local Abbreviation insts self X :=
  (instances_of RawData to_tabular remove_target_column self X).

Lemma classification_mode self :
  mode (base self) = "classification" → is_classification self = true.
Proof. unfold is_classification. by intros ->. Qed.

Lemma regression_mode self :
  mode (base self) = "regression" → is_classification self = false.
Proof. unfold is_classification. by intros ->. Qed.

Lemma instances_of_Ok self X l :
  insts self X = Ok l ↔
  ∃ T, table self X = Ok T ∧ transformer (base self) T = Ok l.
Proof. unfold instances_of. apply bind_Ok. Qed.

(** [explain] first builds the table and the instances, then calls the
    attributor on the whole batch, then resolves the labels, then runs
    the loop. *)
Lemma explain_unfold self X y kw tr :
  explain RawData to_tabular remove_target_column self X y kw tr =
    match table self X with
    | Raise e => (Raise e, tr)
    | Ok T =>
        match transformer (base self) T with
        | Raise e => (Raise e, tr)
        | Ok l =>
            match shap_values (explainer self) l kw with
            | Raise e => (Raise e, tr ++ [EvShapValues l])
            | Ok sv =>
                match resolve_labels self l y (tr ++ [EvShapValues l]) with
                | (Raise e, tr') => (Raise e, tr')
                | (Ok ys, tr') =>
                    (explain_loop
                       (explain_instance self T sv ys (valid_indices self))
                       0 l (FeatureImportance_new (mode (base self))),
                     tr')
                end
            end
        end
    end.
Proof.
  unfold explain, mbind, M_bind, call, lift.
  destruct (table_of _ _ _ _ _) as [T|]; [|done].
  destruct (transformer _ _) as [l|]; [|done].
  destruct (shap_values _ _ _); [|done].
  by destruct (resolve_labels _ _ _ _) as [[ys|e] tr'].
Qed.

(** Once lines 75-77 have returned. *)
Lemma explain_prepared self X y kw tr T l :
  table self X = Ok T →
  transformer (base self) T = Ok l →
  explain RawData to_tabular remove_target_column self X y kw tr =
    match shap_values (explainer self) l kw with
    | Raise e => (Raise e, tr ++ [EvShapValues l])
    | Ok sv =>
        match resolve_labels self l y (tr ++ [EvShapValues l]) with
        | (Raise e, tr') => (Raise e, tr')
        | (Ok ys, tr') =>
            (explain_loop
               (explain_instance self T sv ys (valid_indices self))
               0 l (FeatureImportance_new (mode (base self))),
             tr')
        end
    end.
Proof. intros HT Hl. by rewrite explain_unfold, HT, Hl. Qed.

(** When line 75 or line 77 raises. *)
Lemma explain_not_prepared self X y kw tr e :
  insts self X = Raise e →
  explain RawData to_tabular remove_target_column self X y kw tr = (Raise e, tr).
Proof.
  unfold instances_of, mbind, result_bind. intros H. rewrite explain_unfold.
  destruct (table_of _ _ _ _ _) as [T|]; [|congruence].
  destruct (transformer _ _) as [l|]; [done|congruence].
Qed.

Lemma resolve_labels_Ok self l y tr ys tr' :
  resolve_labels self l y tr = (Ok ys, tr') →
  if is_classification self then
    match y with
    | Some (LInt v) => ys = Some (replicate (length l) v) ∧ tr' = tr
    | Some (LScalar _) => False
    | Some (LSeq labels) => ys = Some labels ∧ length l = length labels ∧ tr' = tr
    | None =>
        ∃ scores labels,
          predict_fn (base self) l = Ok scores ∧
          np_argmax_axis1 scores = Ok labels ∧
          ys = Some labels ∧ tr' = tr ++ [EvPredict l]
    end
  else ys = None ∧ tr' = tr.
Proof.
  unfold resolve_labels. destruct (is_classification self).
  - destruct y as [[v|sc|labels]|].
    + by intros [= <- <-].
    + done.
    + unfold mbind, M_bind, lift, py_assert.
      case_bool_decide; [|done]. by intros [= <- <-].
    + unfold mbind, M_bind, call, lift.
      destruct (predict_fn _ _) as [scores|]; [|done].
      destruct (np_argmax_axis1 scores) as [labels|] eqn:Hargmax; [|done].
      intros [= <- <-]. eauto 10.
  - by intros [= <- <-].
Qed.

(** Every record of a returned result, position by position. *)
Lemma explain_records self X y kw tr r tr' :
  explain RawData to_tabular remove_target_column self X y kw tr = (Ok r, tr') →
  ∃ T l sv ys,
    table self X = Ok T ∧
    transformer (base self) T = Ok l ∧
    shap_values (explainer self) l kw = Ok sv ∧
    resolve_labels self l y (tr ++ [EvShapValues l]) = (Ok ys, tr') ∧
    fi_mode r = mode (base self) ∧
    length (explanations r) = length l ∧
    ∀ i rec, explanations r !! i = Some rec →
      ∃ row lbl imp triples,
        tab_rows T !! i = Some row ∧
        (if is_classification self
         then ∃ labels label,
                ys = Some labels ∧ labels !! i = Some label ∧ lbl = Some label
         else lbl = None) ∧
        importance_row sv lbl i = Ok (Array imp) ∧
        Forall2 (triple_at (feature_columns (base self)) row imp)
                (valid_indices self) triples ∧
        rec = record_of row lbl triples.
Proof.
  rewrite explain_unfold.
  destruct (table_of _ _ _ _ _) as [T|] eqn:HT; [|done].
  destruct (transformer _ _) as [l|] eqn:Hl; [|done].
  destruct (shap_values _ _ _) as [sv|] eqn:Hsv; [|done].
  destruct (resolve_labels _ _ _ _) as [[ys|] tr''] eqn:Hy; [|done].
  intros [= Hloop <-]. exists T, l, sv, ys.
  split; [done|]. split; [done|]. split; [done|]. split; [done|].
  eapply (explain_loop_inv _ (λ i rec, ∃ row lbl imp triples,
            tab_rows T !! i = Some row ∧
            (if is_classification self
             then ∃ labels label,
                    ys = Some labels ∧ labels !! i = Some label ∧ lbl = Some label
             else lbl = None) ∧
            importance_row sv lbl i = Ok (Array imp) ∧
            Forall2 (triple_at (feature_columns (base self)) row imp)
                    (valid_indices self) triples ∧
            rec = record_of row lbl triples)) in Hloop
    as (recs & -> & Hlen & Hrecs).
  - simpl. split; [done|]. split; [done|].
    intros i rec Hi. by apply Hrecs in Hi.
  - intros e i e' He.
    apply explain_instance_inv in He
      as (row & lbl & imp & triples & ? & ? & ? & ? & ->).
    eexists. split; [done|]. exists row, lbl, imp, triples. eauto 10.
Qed.

(** [explain] returns a result when lines 75-77 and the attributor
    return, the labels resolve and every pass of the loop is well
    shaped. *)
Lemma explain_returns self X y kw tr T l sv ys tr' :
  table self X = Ok T →
  transformer (base self) T = Ok l →
  shap_values (explainer self) l kw = Ok sv →
  resolve_labels self l y (tr ++ [EvShapValues l]) = (Ok ys, tr') →
  (∀ i, i < length l → well_shaped self T sv ys i) →
  ∃ r, explain RawData to_tabular remove_target_column self X y kw tr = (Ok r, tr').
Proof.
  intros HT Hl Hsv Hy Hshape.
  rewrite (explain_prepared _ _ _ _ _ T l HT Hl), Hsv, Hy.
  destruct (explain_loop_returns
              (explain_instance self T sv ys (valid_indices self))
              l 0 (FeatureImportance_new (mode (base self))))
    as [r ->]; [|by eexists].
  intros e k Hk. apply explain_instance_returns, Hshape. lia.
Qed.

End ExplainFacts.

Section ExplainClaims.

Variable RawData : Type.
Variable to_tabular : TabularExplainer → RawData → result Tabular.
Variable remove_target_column : Tabular → result Tabular.

Local Abbreviation explain := (explain RawData to_tabular remove_target_column).
Local Abbreviation instances_of :=
  (instances_of RawData to_tabular remove_target_column).
Local Abbreviation table_of :=
  (table_of RawData to_tabular remove_target_column).

(** C3, as the code has it. In classification mode, once lines 75-77
    have produced the table and the instances: a label given as a Python
    [int] is the target label of the record of every instance, one record
    per instance, and a result is returned whenever the attributor
    returns and the data are well shaped for it; a single value of
    another type is not broadcast but raises [TypeError] at the length
    check of line 85; a label sequence whose length differs from the
    number of instances fails the assertion of lines 85-88. In the last
    two cases the attributor has been called first (line 78), and its
    exception, if it raises, is the one [explain] raises. *)
Theorem int_label_broadcast_and_length_checked self X kw tr T insts :
  table_of self X = Ok T →
  transformer (base self) T = Ok insts →
  mode (base self) = "classification" →
  (∀ v r tr',
     explain self X (Some (LInt v)) kw tr = (Ok r, tr') →
     target_label <$> explanations r = replicate (length insts) (Some v)) ∧
  (∀ v sv,
     shap_values (explainer self) insts kw = Ok sv →
     (∀ i, i < length insts →
        well_shaped self T sv (Some (replicate (length insts) v)) i) →
     ∃ r, explain self X (Some (LInt v)) kw tr =
            (Ok r, tr ++ [EvShapValues insts])) ∧
  (∀ s,
     explain self X (Some (LScalar s)) kw tr =
       (Raise match shap_values (explainer self) insts kw with
              | Ok _ => TypeError (no_len_msg s)
              | Raise e => e
              end,
        tr ++ [EvShapValues insts])) ∧
  (∀ l,
     length l ≠ length insts →
     explain self X (Some (LSeq l)) kw tr =
       (Raise match shap_values (explainer self) insts kw with
              | Ok _ => AssertionError labels_msg
              | Raise e => e
              end,
        tr ++ [EvShapValues insts])).
Proof.
  intros HT Hinsts Hmode%classification_mode. split; [|split; [|split]].
  - intros v r tr' H.
    apply explain_records in H
      as (T' & l' & sv & ys & HT' & Hl' & _ & Hy & _ & Hlen & Hrecs).
    assert (T' = T) as -> by congruence.
    assert (l' = insts) as -> by congruence.
    apply resolve_labels_Ok in Hy. rewrite Hmode in Hy, Hrecs.
    destruct Hy as [-> _].
    apply list_eq_same_length with (length (explanations r)).
    + by rewrite length_replicate.
    + by rewrite length_fmap.
    + intros i lbl lbl' Hi Hlbl Hrep.
      apply list_lookup_fmap_Some in Hlbl as (rec & -> & Hrec).
      apply Hrecs in Hrec
        as (row & lb & imp & triples & _ & (labels & label & Hl & Hli & ->) & _ & _ & ->).
      injection Hl as <-.
      apply lookup_replicate in Hli as [-> _].
      apply lookup_replicate in Hrep as [-> _]. done.
  - intros v sv Hsv Hshape.
    eapply explain_returns; [exact HT|exact Hinsts|exact Hsv| |exact Hshape].
    unfold resolve_labels. by rewrite Hmode.
  - intros s.
    rewrite (explain_prepared _ _ _ _ _ _ _ _ T insts HT Hinsts).
    destruct (shap_values _ _ _) as [sv|e]; [|done].
    unfold resolve_labels. by rewrite Hmode.
  - intros l Hlen.
    rewrite (explain_prepared _ _ _ _ _ _ _ _ T insts HT Hinsts).
    destruct (shap_values _ _ _) as [sv|e]; [|done].
    unfold resolve_labels. rewrite Hmode.
    unfold mbind, M_bind, lift, py_assert.
    by rewrite bool_decide_eq_false_2.
Qed.


(** C5. In classification mode without labels, the prediction function
    is called on the instances and the target label of the record of
    instance [i] is a position of the largest score in row [i] of its
    output, every earlier position holding a strictly smaller score; a
    result is returned whenever lines 75-77, the attributor and the
    prediction function return, no row of scores is empty and the data
    are well shaped for the labels so chosen. *)
Theorem absent_labels_select_first_maximum self X kw tr :
  mode (base self) = "classification" →
  (∀ r tr',
     explain self X None kw tr = (Ok r, tr') →
     ∃ insts prediction_scores,
       instances_of self X = Ok insts ∧
       predict_fn (base self) insts = Ok prediction_scores ∧
       length (explanations r) = length insts ∧
       ∀ i rec, explanations r !! i = Some rec →
         ∃ probs k p,
           prediction_scores !! i = Some probs ∧
           target_label rec = Some (Z.of_nat k) ∧
           probs !! k = Some p ∧
           (∀ j q, probs !! j = Some q → (q <= p)%Q) ∧
           (∀ j q, j < k → probs !! j = Some q → (q < p)%Q)) ∧
  (∀ T insts sv prediction_scores labels,
     table_of self X = Ok T →
     transformer (base self) T = Ok insts →
     shap_values (explainer self) insts kw = Ok sv →
     predict_fn (base self) insts = Ok prediction_scores →
     np_argmax_axis1 prediction_scores = Ok labels →
     (∀ i, i < length insts → well_shaped self T sv (Some labels) i) →
     ∃ r, explain self X None kw tr =
            (Ok r, (tr ++ [EvShapValues insts]) ++ [EvPredict insts])).
Proof.
  intros Hmode%classification_mode. split.
  - intros r tr' H.
    apply explain_records in H
      as (T & l & sv & ys & HT & Hl & _ & Hy & _ & Hlen & Hrecs).
    apply resolve_labels_Ok in Hy. rewrite Hmode in Hy, Hrecs.
    destruct Hy as (scores & labels & Hpred & Hargmax & -> & _).
    exists l, scores. split; [apply instances_of_Ok; eauto|].
    split; [done|]. split; [done|].
    intros i rec Hrec.
    apply Hrecs in Hrec
      as (row & lb & imp & triples & _ & (labels' & label & Hlb & Hli & ->) & _ & _ & ->).
    injection Hlb as <-.
    apply np_argmax_axis1_Ok in Hargmax.
    destruct (Forall2_lookup_r _ _ _ _ _ Hargmax Hli)
      as (probs & Hprobs & k & Hk & ->).
    apply np_argmax_first_max in Hk as (p & Hp & Hmax & Hfirst).
    exists probs, k, p. done.
  - intros T insts sv scores labels HT Hinsts Hsv Hpred Hargmax Hshape.
    eapply explain_returns; [exact HT|exact Hinsts|exact Hsv| |exact Hshape].
    unfold resolve_labels. rewrite Hmode.
    unfold mbind, M_bind, call, lift. by rewrite Hpred, Hargmax.
Qed.

(** C6. In regression mode [explain] does the same whatever the labels
    argument is, every record of the result, one per instance, has no
    target label, and a result is returned whenever lines 75-77 and the
    attributor return and the data are well shaped. *)
Theorem regression_ignores_labels self X kw tr :
  mode (base self) = "regression" →
  (∀ y, explain self X y kw tr = explain self X None kw tr) ∧
  (∀ y r tr',
     explain self X y kw tr = (Ok r, tr') →
     (∃ insts, instances_of self X = Ok insts ∧
               length (explanations r) = length insts) ∧
     Forall (λ rec, target_label rec = None) (explanations r)) ∧
  (∀ y T insts sv,
     table_of self X = Ok T →
     transformer (base self) T = Ok insts →
     shap_values (explainer self) insts kw = Ok sv →
     (∀ i, i < length insts → well_shaped self T sv None i) →
     ∃ r, explain self X y kw tr = (Ok r, tr ++ [EvShapValues insts])).
Proof.
  intros Hmode%regression_mode. split; [|split].
  - intros y. rewrite !explain_unfold.
    unfold resolve_labels. by rewrite Hmode.
  - intros y r tr' H.
    apply explain_records in H
      as (T & l & sv & ys & HT & Hl & _ & _ & _ & Hlen & Hrecs).
    split; [exists l; split; [apply instances_of_Ok; eauto|done]|].
    apply Forall_lookup. intros i rec Hrec.
    apply Hrecs in Hrec as (row & lb & imp & triples & _ & Hlb & _ & _ & ->).
    rewrite Hmode in Hlb. by subst lb.
  - intros y T insts sv HT Hinsts Hsv Hshape.
    eapply explain_returns; [exact HT|exact Hinsts|exact Hsv| |exact Hshape].
    unfold resolve_labels. by rewrite Hmode.
Qed.

Lemma triple_names columns row imp valid triples :
  Forall2 (triple_at columns row imp) valid triples →
  (λ j, columns !! j) <$> valid = Some <$> triples.*1.*1.
Proof.
  induction 1 as [|j t valid triples (Hname & _ & _) _ IH]; [done|].
  rewrite !fmap_cons. by rewrite Hname, IH.
Qed.

Lemma record_of_triples row lbl triples :
  zip (zip (features (record_of row lbl triples))
           (values (record_of row lbl triples)))
      (scores (record_of row lbl triples)) = sort_desc triples.
Proof. unfold record_of; simpl. by rewrite !zip_fst_snd. Qed.

(** C7, as the code has it. The positions kept by lines 95-98 are those
    of the feature columns that are not ignored, in increasing order.
    For the record of instance [i], the names, values and scores handed
    to the result are those of exactly these positions, in the order of
    the feature columns; the record stores the same triples reordered by
    descending absolute score ([sort=True]), so no ignored feature
    appears in it. *)
Theorem records_hold_kept_features_by_descending_score self X y kw tr r tr' :
  explain self X y kw tr = (Ok r, tr') →
  valid_indices self =
    filter (λ j, kept (feature_columns (base self)) (ignored_features self) j)
           (seq 0 (length (feature_columns (base self)))) ∧
  ∃ T insts sv,
    table_of self X = Ok T ∧
    transformer (base self) T = Ok insts ∧
    shap_values (explainer self) insts kw = Ok sv ∧
    ∀ i rec, explanations r !! i = Some rec →
      ∃ row imp triples,
        tab_rows T !! i = Some row ∧
        importance_row sv (target_label rec) i = Ok (Array imp) ∧
        Forall2 (triple_at (feature_columns (base self)) row imp)
                (valid_indices self) triples ∧
        triples.*1.*1 =
          filter (λ f, f ∉ ignored_features self) (feature_columns (base self)) ∧
        zip (zip (features rec) (values rec)) (scores rec) ≡ₚ triples ∧
        length (features rec) = length triples ∧
        length (values rec) = length triples ∧
        length (scores rec) = length triples ∧
        StronglySorted by_abs_desc
          (zip (zip (features rec) (values rec)) (scores rec)) ∧
        ∀ f, f ∈ ignored_features self → f ∉ features rec.
Proof.
  intros H. split; [apply valid_indices_kept|].
  apply explain_records in H
    as (T & l & sv & ys & HT & Hl & Hsv & _ & _ & _ & Hrecs).
  exists T, l, sv. split; [done|]. split; [done|]. split; [done|].
  intros i rec Hrec.
  apply Hrecs in Hrec as (row & lbl & imp & triples & Hrow & _ & Himp & Htr & ->).
  exists row, imp, triples.
  assert (triples.*1.*1 =
          filter (λ f, f ∉ ignored_features self) (feature_columns (base self)))
    as Hnames.
  { apply triple_names in Htr.
    rewrite valid_indices_kept, kept_names in Htr.
    symmetry. by apply (inj (fmap Some)). }
  pose proof (sort_desc_perm triples) as Hperm.
  rewrite record_of_triples.
  repeat split; try done.
  - simpl. rewrite !length_fmap. by apply Permutation_length.
  - simpl. rewrite !length_fmap. by apply Permutation_length.
  - simpl. rewrite !length_fmap. by apply Permutation_length.
  - apply sort_desc_sorted.
  - intros f Hf Hin. simpl in Hin.
    assert (f ∈ triples.*1.*1) as Hin'.
    { by rewrite <- Hperm. }
    rewrite Hnames in Hin'. apply list_elem_of_filter in Hin' as [Hnf _].
    done.
Qed.

End ExplainClaims.

(** ** The theorems at work on the small classifier and regressor *)

(** Settle [well_shaped] on concrete data: exhibit the row, the label and
    the scores by evaluation, then go through the kept positions. *)
Ltac shape_cells Hj :=
  first
    [ by apply elem_of_nil in Hj
    | let Hj' := fresh "Hj" in
      apply elem_of_cons in Hj as [->|Hj']; [|shape_cells Hj'] ].

Ltac shape_pass :=
  eexists _, _, _; split; [reflexivity|]; split;
  [first [reflexivity | eexists _, _; split; [reflexivity|]; split; reflexivity]|];
  split; [vm_compute; reflexivity|];
  let j := fresh "j" in let f := fresh "f" in
  let Hj := fresh "Hj" in let Hf := fresh "Hf" in
  intros j f Hj Hf; shape_cells Hj;
  injection Hf as <-; eexists _, _; split; reflexivity.

Lemma classifier_shape (v : Z) :
  (v = 0 ∨ v = 1)%Z →
  ∀ i, i < 2 →
    well_shaped (Demo.classifier ["b"]) Demo.X Demo.class_values
      (Some (replicate 2 v)) i.
Proof.
  intros Hv i Hi.
  assert (valid_indices (Demo.classifier ["b"]) = [0; 2]) as Hvalid
    by (vm_compute; reflexivity).
  unfold well_shaped. rewrite Hvalid.
  destruct i as [|[|i]]; [| |lia]; destruct Hv as [-> | ->]; shape_pass.
Qed.

Lemma classifier_all_features_shape :
  ∀ i, i < 2 →
    well_shaped (Demo.classifier []) Demo.X Demo.class_values
      (Some [1; 1]%Z) i.
Proof.
  intros i Hi.
  assert (valid_indices (Demo.classifier []) = [0; 1; 2]) as Hvalid
    by (vm_compute; reflexivity).
  unfold well_shaped. rewrite Hvalid.
  destruct i as [|[|i]]; [| |lia]; shape_pass.
Qed.

Lemma regressor_shape :
  ∀ i, i < 2 →
    well_shaped (Demo.regressor ["a"]) Demo.X Demo.reg_values None i.
Proof.
  intros i Hi.
  assert (valid_indices (Demo.regressor ["a"]) = [1; 2]) as Hvalid
    by (vm_compute; reflexivity).
  unfold well_shaped. rewrite Hvalid.
  destruct i as [|[|i]]; [| |lia]; shape_pass.
Qed.

Lemma target_in_ignored_fails_at_construction_witness :
  Demo.construct Demo.labelled (Some ["a"; "y"]) =
    (Raise (AssertionError (target_column_msg "y")), []) ∧
  (∀ e tr', Demo.construct Demo.labelled (Some ["a"]) = (Ok e, tr') →
     target_column (base e) = Some "y" ∧ "y" ∉ ignored_features e).
Proof.
  pose proof (target_in_ignored_fails_at_construction _ Demo.base_init
                Demo.sample Demo.kernel Demo.labelled Demo.probabilities
                "classification" ∅ _ "y" [] eq_refl eq_refl) as [Hfail Hinv].
  split.
  - apply Hfail. right. left.
  - intros e tr'. apply Hinv.
Defined.

Lemma none_ignored_with_target_raises_witness :
  Demo.construct Demo.labelled None =
    (Raise (TypeError "argument of type 'NoneType' is not iterable"), []) ∧
  (∀ e tr', Demo.construct Demo.X None = (Ok e, tr') →
     target_column (base e) = None).
Proof.
  pose proof (none_ignored_with_target_raises _ Demo.base_init Demo.sample
                Demo.kernel Demo.labelled Demo.probabilities
                "classification" ∅ []) as [Hraise _].
  pose proof (none_ignored_with_target_raises _ Demo.base_init Demo.sample
                Demo.kernel Demo.X Demo.probabilities
                "classification" ∅ []) as [_ Hok].
  split.
  - eapply Hraise; reflexivity.
  - exact Hok.
Defined.

(** C3, as the claim states it, fails twice: a NumPy integer passed as
    the single label is not broadcast, the call raises [TypeError]; and
    with a label sequence of the wrong length and an attributor that
    raises, the call fails with the attributor's exception, not with the
    assertion of lines 85-88. *)
Lemma single_value_rejected_and_attributor_error_first :
  Demo.run (Demo.classifier []) (Some (LScalar (NumpyInt 1))) =
    (Raise (TypeError "object of type 'numpy.int64' has no len()"),
     [EvShapValues (Demo.encode <$> tab_rows Demo.X)]) ∧
  (∃ err tr,
     Cases.run_on Cases.failing_attributor Demo.X (Some (LSeq [0; 1; 1]%Z)) =
       (Raise err, tr) ∧
     err ≠ AssertionError labels_msg).
Proof.
  split; [vm_compute; reflexivity|].
  eexists _, _. split; [vm_compute; reflexivity|]. discriminate.
Qed.

Lemma int_label_broadcast_and_length_checked_witness :
  (∃ r tr', Demo.run (Demo.classifier ["b"]) (Some (LInt 0)) = (Ok r, tr') ∧
            target_label <$> explanations r = [Some 0%Z; Some 0%Z]) ∧
  (∃ r, Demo.run (Demo.classifier ["b"]) (Some (LInt 1)) =
          (Ok r, [EvShapValues (Demo.encode <$> tab_rows Demo.X)])) ∧
  Demo.run (Demo.classifier ["b"]) (Some (LScalar (PyBool true))) =
    (Raise (TypeError "object of type 'bool' has no len()"),
     [EvShapValues (Demo.encode <$> tab_rows Demo.X)]) ∧
  Demo.run (Demo.classifier ["b"]) (Some (LSeq [0; 1; 1]%Z)) =
    (Raise (AssertionError labels_msg), [EvShapValues (Demo.encode <$> tab_rows Demo.X)]).
Proof.
  pose proof (int_label_broadcast_and_length_checked Tabular (λ _ t, Ok t)
                (λ t, Ok t) (Demo.classifier ["b"]) Demo.X ∅ []
                Demo.X (Demo.encode <$> tab_rows Demo.X) eq_refl eq_refl eq_refl)
    as (Hint & Hret & Hscalar & Hseq).
  split; [|split; [|split]].
  - eexists _, _. split; [vm_compute; reflexivity|].
    eapply (Hint 0%Z). vm_compute. reflexivity.
  - apply (Hret 1%Z Demo.class_values eq_refl).
    apply (classifier_shape 1). by right.
  - exact (Hscalar (PyBool true)).
  - apply (Hseq [0; 1; 1]%Z). simpl. lia.
Defined.



Lemma absent_labels_select_first_maximum_witness :
  (∃ r tr', Demo.run (Demo.classifier []) None = (Ok r, tr') ∧
     ∃ insts prediction_scores,
       Ok (Demo.encode <$> tab_rows Demo.X) = Ok insts ∧
       Demo.probabilities insts = Ok prediction_scores ∧
       length (explanations r) = length insts ∧
       ∀ i rec, explanations r !! i = Some rec →
         ∃ probs k p,
           prediction_scores !! i = Some probs ∧
           target_label rec = Some (Z.of_nat k) ∧
           probs !! k = Some p ∧
           (∀ j q, probs !! j = Some q → (q <= p)%Q) ∧
           (∀ j q, j < k → probs !! j = Some q → (q < p)%Q)) ∧
  (∃ r, Demo.run (Demo.classifier []) None =
          (Ok r, [EvShapValues (Demo.encode <$> tab_rows Demo.X);
                  EvPredict (Demo.encode <$> tab_rows Demo.X)])).
Proof.
  pose proof (absent_labels_select_first_maximum Tabular (λ _ t, Ok t) (λ t, Ok t)
                (Demo.classifier []) Demo.X ∅ [] eq_refl) as (Hmax & Hret).
  split.
  - eexists _, _. split; [vm_compute; reflexivity|].
    eapply Hmax. vm_compute. reflexivity.
  - apply (Hret Demo.X _ Demo.class_values _ [1; 1]%Z
             eq_refl eq_refl eq_refl eq_refl eq_refl).
    exact classifier_all_features_shape.
Defined.

Lemma regression_ignores_labels_witness :
  (∀ y, Demo.run (Demo.regressor ["a"]) y = Demo.run (Demo.regressor ["a"]) None) ∧
  (∀ y r tr', Demo.run (Demo.regressor ["a"]) y = (Ok r, tr') →
     (∃ insts, Ok (Demo.encode <$> tab_rows Demo.X) = Ok insts ∧
               length (explanations r) = length insts) ∧
     Forall (λ rec, target_label rec = None) (explanations r)) ∧
  (∀ y, ∃ r, Demo.run (Demo.regressor ["a"]) y =
               (Ok r, [EvShapValues (Demo.encode <$> tab_rows Demo.X)])).
Proof.
  destruct (regression_ignores_labels Tabular (λ _ t, Ok t) (λ t, Ok t)
              (Demo.regressor ["a"]) Demo.X ∅ [] eq_refl) as (Hsame & Hnone & Hret).
  split; [exact Hsame|]. split; [exact Hnone|].
  intros y. apply (Hret y Demo.X _ Demo.reg_values eq_refl eq_refl eq_refl).
  exact regressor_shape.
Defined.

(** C7, as the claim states it, fails: with feature [b] ignored and the
    scores 1 and -5 for [a] and [c], the first record lists [c] before
    [a]. *)
Lemma sorted_record_not_in_feature_order :
  ∃ r tr, Demo.run (Demo.classifier ["b"]) (Some (LInt 0)) = (Ok r, tr) ∧
          ¬ Forall (in_original_order (Demo.classifier ["b"])) (explanations r).
Proof.
  eexists _, _. split; [vm_compute; reflexivity|].
  intros Hall. apply Forall_cons in Hall as [Hfirst _].
  unfold in_original_order in Hfirst. vm_compute in Hfirst. discriminate Hfirst.
Qed.

Lemma records_hold_kept_features_by_descending_score_witness :
  ∃ r tr', Demo.run (Demo.classifier ["b"]) (Some (LInt 0)) = (Ok r, tr') ∧
    ∀ i rec, explanations r !! i = Some rec →
      ("b" ∉ features rec) ∧
      StronglySorted by_abs_desc (zip (zip (features rec) (values rec)) (scores rec)).
Proof.
  eexists _, _. split; [vm_compute; reflexivity|].
  intros i rec Hrec.
  edestruct (records_hold_kept_features_by_descending_score Tabular (λ _ t, Ok t)
               (λ t, Ok t) (Demo.classifier ["b"]) Demo.X (Some (LInt 0)) ∅ [])
    as (_ & T & insts & sv & _ & _ & _ & Hrecs); [vm_compute; reflexivity|].
  destruct (Hrecs i rec Hrec)
    as (row & imp & triples & _ & _ & _ & _ & _ & _ & _ & _ & Hsorted & Hign).
  split; [|exact Hsorted].
  apply Hign. by apply elem_of_list_to_set; left.
Defined.

(** ** More on construction *)

Section InitExtras.

Variable PredictFunction : Type.
Variable TabularExplainer_init :
  Tabular → PredictFunction → string → kwargs → result TabularExplainer.
Variable shap_sample : Instances → pyval → result Instances.
Variable shap_KernelExplainer :
  (Instances → result (list (list Q))) → Instances → string → kwargs →
  result KernelExplainer.

(** X1. The constructor returns an explainer exactly when the base
    constructor returns, the target column (if there is one) is outside a
    given list of ignored features, the background is obtained and
    [shap.KernelExplainer] returns. The explainer then holds the set of
    the ignored names, and [shap.KernelExplainer] was called last, on that
    background, with link [logit] for mode [classification] and [identity]
    for any other mode, and with the keyword arguments as given. *)
Theorem construction_succeeds_iff td pf m ign kw tr e tr' :
  ShapTabular_init PredictFunction TabularExplainer_init shap_sample
    shap_KernelExplainer td pf m ign kw tr = (Ok e, tr') ↔
  ∃ self bg tr_bg expl,
    TabularExplainer_init td pf m kw = Ok self ∧
    match target_column self with
    | Some t => ∃ l, ign = Some l ∧ t ∉ l
    | None => True
    end ∧
    background shap_sample self kw tr = (Ok bg, tr_bg) ∧
    shap_KernelExplainer (predict_fn self) bg (link_of_mode m) kw = Ok expl ∧
    e = {| base := self;
           ignored_features :=
             match ign with Some l => list_to_set l | None => ∅ end;
           explainer := expl |} ∧
    tr' = tr_bg ++ [EvKernelExplainer bg (link_of_mode m)].
Proof.
  unfold ShapTabular_init, mbind, M_bind, lift, call.
  split.
  - destruct (TabularExplainer_init td pf m kw) as [self|]; [|done].
    intros H. exists self.
    assert (match target_column self with
            | Some t => ∃ l, ign = Some l ∧ t ∉ l
            | None => True
            end ∧
            match background shap_sample self kw tr with
            | (Ok a, tr1) =>
                match shap_KernelExplainer (predict_fn self) a (link_of_mode m) kw with
                | Ok expl =>
                    (Ok {| base := self;
                           ignored_features :=
                             match ign with Some l => list_to_set l | None => ∅ end;
                           explainer := expl |},
                     tr1 ++ [EvKernelExplainer a (link_of_mode m)])
                | Raise e0 => (Raise e0, tr1 ++ [EvKernelExplainer a (link_of_mode m)])
                end
            | (Raise e0, tr1) => (Raise e0, tr1)
            end = (Ok e, tr')) as [Htarget Hrest].
    { destruct (target_column self) as [t|]; [|done].
      destruct ign as [l|]; simpl in H; [|done].
      unfold py_assert in H. case_bool_decide; simpl in H; [|done]. eauto. }
    destruct (background shap_sample self kw tr) as [[bg|] tr_bg]; [|done].
    destruct (shap_KernelExplainer _ _ _ _) as [expl|] eqn:Hexpl; [|done].
    injection Hrest as <- <-. exists bg, tr_bg, expl. done.
  - intros (self & bg & tr_bg & expl & -> & Htarget & Hbg & Hexpl & -> & ->).
    destruct (target_column self) as [t|].
    + destruct Htarget as (l & -> & Hnin). simpl.
      rewrite bool_decide_eq_true_2 by done. simpl.
      unfold mret, M_ret. by rewrite Hbg, Hexpl.
    + simpl. unfold mret, M_ret. by rewrite Hbg, Hexpl.
Qed.

(** X2. The ignored features are taken as a set: two lists with the same
    members, in any order and with any repetitions, give the same outcome
    of the constructor. *)
Theorem ignored_list_read_as_set td pf m l1 l2 kw tr :
  (∀ f, f ∈ l1 ↔ f ∈ l2) →
  ShapTabular_init PredictFunction TabularExplainer_init shap_sample
    shap_KernelExplainer td pf m (Some l1) kw tr =
  ShapTabular_init PredictFunction TabularExplainer_init shap_sample
    shap_KernelExplainer td pf m (Some l2) kw tr.
Proof.
  intros Hsame.
  assert (list_to_set l1 =@{gset string} list_to_set l2) as Hset.
  { apply set_eq. intros f. by rewrite !elem_of_list_to_set. }
  unfold ShapTabular_init, mbind, M_bind, lift.
  destruct (TabularExplainer_init td pf m kw) as [self|]; [|done].
  rewrite Hset.
  destruct (target_column self) as [t|]; [|done].
  simpl.
  assert (bool_decide (t ∉ l1) = bool_decide (t ∉ l2)) as ->; [|done].
  apply bool_decide_ext. by rewrite Hsame.
Qed.

(** X3. When [nsamples] is given and [shap.sample] raises, the
    constructor raises the same exception, after the target check and
    before [shap.KernelExplainer] is called. *)
Theorem sampling_failure_surfaces_at_construction td pf m ign kw tr self n err :
  TabularExplainer_init td pf m kw = Ok self →
  match target_column self with
  | Some t => ∃ l, ign = Some l ∧ t ∉ l
  | None => True
  end →
  kw !! "nsamples" = Some n →
  shap_sample (data self) n = Raise err →
  ShapTabular_init PredictFunction TabularExplainer_init shap_sample
    shap_KernelExplainer td pf m ign kw tr =
    (Raise err, tr ++ [EvSample (data self) n]).
Proof.
  intros Hself Htarget Hn Herr.
  unfold ShapTabular_init, mbind, M_bind, lift. rewrite Hself.
  assert (background shap_sample self kw tr =
          (Raise err, tr ++ [EvSample (data self) n])) as Hbg.
  { unfold background. rewrite Hn. unfold call. by rewrite Herr. }
  destruct (target_column self) as [t|].
  - destruct Htarget as (l & -> & Hnin). simpl.
    rewrite bool_decide_eq_true_2 by done. simpl. by rewrite Hbg.
  - simpl. by rewrite Hbg.
Qed.

End InitExtras.

Lemma ignored_list_read_as_set_witness :
  Cases.construct_with Demo.sample (Some ["a"; "b"; "a"]) ∅ =
  Cases.construct_with Demo.sample (Some ["b"; "a"]) ∅.
Proof.
  apply (ignored_list_read_as_set _ Demo.base_init Demo.sample Demo.kernel
           Demo.labelled Demo.probabilities "classification"
           ["a"; "b"; "a"] ["b"; "a"] ∅ []).
  intros f. rewrite !elem_of_cons, !elem_of_nil. tauto.
Defined.

Lemma sampling_failure_surfaces_at_construction_witness :
  Cases.construct_with Cases.failing_sample (Some ["a"]) {["nsamples" := PInt 1]} =
    (Raise ValueError,
     [EvSample (Demo.encode <$> [Demo.row0; Demo.row1]) (PInt 1)]).
Proof.
  pose proof (sampling_failure_surfaces_at_construction _ Demo.base_init
                Cases.failing_sample Demo.kernel Demo.labelled Demo.probabilities
                "classification" (Some ["a"]) {["nsamples" := PInt 1]} []
                _ (PInt 1) ValueError eq_refl) as Hfail.
  apply Hfail.
  - simpl. exists ["a"]. split; [done|].
    rewrite elem_of_cons, elem_of_nil. intros [[=]|[]].
  - vm_compute. reflexivity.
  - reflexivity.
Defined.

(** ** More on indexing *)

Lemma py_index_out_of_range {A} (l : list A) (i : Z) :
  (i < - Z.of_nat (length l) ∨ Z.of_nat (length l) ≤ i)%Z →
  py_index l i = Raise IndexError.
Proof.
  intros Hout. unfold py_index.
  destruct (i <? 0)%Z eqn:Hneg.
  - apply Z.ltb_lt in Hneg.
    assert ((0 <=? i + Z.of_nat (length l))%Z = false) as ->
      by (apply Z.leb_gt; lia).
    done.
  - apply Z.ltb_ge in Hneg.
    assert ((i <? Z.of_nat (length l))%Z = false) as ->
      by (apply Z.ltb_ge; lia).
    by rewrite andb_false_r.
Qed.

Lemma py_index_negative {A} (l : list A) (i : Z) :
  (- Z.of_nat (length l) ≤ i < 0)%Z →
  py_index l i = py_index l (i + Z.of_nat (length l)).
Proof.
  intros [Hlo Hhi]. unfold py_index.
  assert ((i <? 0)%Z = true) as -> by (apply Z.ltb_lt; lia).
  assert ((i + Z.of_nat (length l) <? 0)%Z = false) as ->
    by (apply Z.ltb_ge; lia).
  done.
Qed.

Lemma mapM_Raise {A B} (f : A → result B) (pre post : list A) (x : A) (e : exn) :
  (∀ z, z ∈ pre → ∃ y, f z = Ok y) →
  f x = Raise e →
  mapM f (pre ++ x :: post) = Raise e.
Proof.
  intros Hpre Hx. induction pre as [|z pre IH]; simpl.
  - unfold mbind, result_bind. by rewrite Hx.
  - destruct (Hpre z) as [y Hy]; [left|].
    unfold mbind, result_bind in *. rewrite Hy.
    rewrite IH; [done|]. intros w Hw. apply Hpre. by right.
Qed.

Lemma filter_seq_increasing (P : nat → Prop) `{!∀ j, Decision (P j)} (a n : nat) :
  StronglySorted lt (filter P (seq a n)).
Proof.
  revert a. induction n as [|n IH]; intros a; simpl; [constructor|].
  rewrite filter_cons. destruct (decide (P a)); [|apply IH].
  apply StronglySorted_cons. split; [|apply IH].
  apply Forall_forall. intros j [_ Hj%elem_of_seq]%list_elem_of_filter. lia.
Qed.

(** ** More on the kept positions *)

(** X4. The kept positions are strictly increasing, and a position is
    kept exactly when it names a feature column that is not ignored. *)
Theorem valid_indices_increasing_and_exact (self : ShapTabular) :
  StronglySorted lt (valid_indices self) ∧
  ∀ j, j ∈ valid_indices self ↔
       ∃ f, feature_columns (base self) !! j = Some f ∧
            f ∉ ignored_features self.
Proof.
  rewrite valid_indices_kept. split; [apply filter_seq_increasing|].
  intros j. rewrite list_elem_of_filter, elem_of_seq. unfold kept. split.
  - intros [Hkept _].
    destruct (feature_columns (base self) !! j) as [f|]; [|done].
    exists f. split; [done|]. by apply bool_decide_unpack in Hkept.
  - intros (f & Hf & Hnin). rewrite Hf. split; [by apply bool_decide_pack|].
    apply lookup_lt_Some in Hf. lia.
Qed.

(** X5. An ignored name that is not a feature column is accepted and has
    no effect: when no ignored name is a feature column, every position
    is kept. *)
Theorem unknown_ignored_names_keep_every_feature (self : ShapTabular) :
  (∀ f, f ∈ ignored_features self → f ∉ feature_columns (base self)) →
  valid_indices self = seq 0 (length (feature_columns (base self))).
Proof.
  intros Hunknown. rewrite valid_indices_kept.
  apply filter_all. intros j Hj%elem_of_seq. unfold kept.
  destruct (lookup_lt_is_Some_2 (feature_columns (base self)) j) as [f Hf];
    [lia|].
  rewrite Hf. apply bool_decide_pack. intros Hin.
  apply (Hunknown f Hin). by eapply list_elem_of_lookup_2.
Qed.

Lemma unknown_ignored_names_keep_every_feature_witness :
  valid_indices (Demo.classifier ["age"; "zip"]) = [0; 1; 2].
Proof.
  apply (unknown_ignored_names_keep_every_feature (Demo.classifier ["age"; "zip"])).
  intros f Hf. simpl in *. set_unfold.
  intros Hcol. destruct Hf as [->|[->|[]]]; destruct Hcol as [[=]|[[=]|[[=]|[]]]].
Defined.

(** ** Passes of the loop that raise *)

Lemma explain_instance_label_out_of_range self X classes ys exps i row v :
  is_classification self = true →
  tab_rows X !! i = Some row →
  (∀ j f, j ∈ valid_indices self → feature_columns (base self) !! j = Some f →
     ∃ c, df_value {| df_rows := [row] |} f = Ok c) →
  ys !! i = Some v →
  (v < - Z.of_nat (length classes) ∨ Z.of_nat (length classes) ≤ v)%Z →
  explain_instance self X (Array classes) (Some ys) (valid_indices self) exps i =
    Raise IndexError.
Proof.
  intros Hmode Hrow Hcells Hv Hout.
  unfold explain_instance, Tabular_iloc.
  apply py_index_nat in Hrow, Hv. rewrite Hrow. simpl. unfold to_pd; simpl.
  destruct (mapM_is_Ok
              (λ j, name ← py_index (feature_columns (base self)) (Z.of_nat j);
                    df_value {| df_rows := [row] |} name) (valid_indices self))
    as [vals ->].
  { intros j Hj. destruct (valid_indices_lookup self j Hj) as [f Hf].
    destruct (Hcells j f Hj Hf) as [c Hc].
    exists c. apply bind_Ok. exists f. by rewrite py_index_nat. }
  destruct (mapM_is_Ok
              (λ j, py_index (feature_columns (base self)) (Z.of_nat j))
              (valid_indices self)) as [names ->].
  { intros j Hj. destruct (valid_indices_lookup self j Hj) as [f Hf].
    exists f. by rewrite py_index_nat. }
  simpl. rewrite Hmode, Hv. simpl.
  by rewrite (py_index_out_of_range classes v Hout).
Qed.

Lemma explain_instance_missing_cell self X sv ys exps i row pre j post f :
  tab_rows X !! i = Some row →
  valid_indices self = pre ++ j :: post →
  feature_columns (base self) !! j = Some f →
  (∀ j' f', j' ∈ pre → feature_columns (base self) !! j' = Some f' →
     ∃ c, df_value {| df_rows := [row] |} f' = Ok c) →
  (∀ cell, cell ∈ row → cell.1 ≠ f) →
  explain_instance self X sv ys (valid_indices self) exps i = Raise (KeyError f).
Proof.
  intros Hrow Hvalid Hf Hpre Hmissing.
  unfold explain_instance, Tabular_iloc.
  apply py_index_nat in Hrow. rewrite Hrow. simpl. unfold to_pd; simpl.
  rewrite Hvalid.
  rewrite (mapM_Raise
             (λ j, name ← py_index (feature_columns (base self)) (Z.of_nat j);
                   df_value {| df_rows := [row] |} name)
             pre post j (KeyError f)); [reflexivity| |].
  - intros j' Hj'.
    destruct (valid_indices_lookup self j') as [f' Hf'].
    { rewrite Hvalid. apply elem_of_app. by left. }
    destruct (Hpre j' f' Hj' Hf') as [c Hc].
    exists c. apply bind_Ok. exists f'. by rewrite py_index_nat.
  - apply py_index_nat in Hf. unfold mbind, result_bind. rewrite Hf.
    unfold df_value. simpl.
    destruct (list_find (λ c, c.1 = f) row) as [[k cell]|] eqn:Hfind; [|done].
    apply list_find_Some in Hfind as (Hk & Hname & _).
    exfalso. eapply Hmissing; [|exact Hname]. by eapply list_elem_of_lookup_2.
Qed.

Lemma triple_at_functional columns row imp valid (t1 t2 : list Triple) :
  Forall2 (triple_at columns row imp) valid t1 →
  Forall2 (triple_at columns row imp) valid t2 →
  t1 = t2.
Proof.
  intros H1. revert t2.
  induction H1 as [|j [[n1 v1] q1] valid t1 (Hn1 & Hv1 & Hq1) _ IH];
    intros t2 H2.
  - by inversion H2.
  - inversion H2 as [|? [[n2 v2] q2] ? t2' (Hn2 & Hv2 & Hq2) H2']; subst.
    simpl in *. f_equal; [|by apply IH].
    assert (n2 = n1) as -> by congruence.
    assert (v2 = v1) as -> by congruence.
    assert (q2 = q1) as -> by congruence.
    done.
Qed.

(** ** More on explain *)

Section ExplainExtras.

Variable RawData : Type.
Variable to_tabular : TabularExplainer → RawData → result Tabular.
Variable remove_target_column : Tabular → result Tabular.

Local Abbreviation explain := (explain RawData to_tabular remove_target_column).
Local Abbreviation instances_of :=
  (instances_of RawData to_tabular remove_target_column).
Local Abbreviation table_of :=
  (table_of RawData to_tabular remove_target_column).

Lemma other_mode self :
  mode (base self) ≠ "classification" → is_classification self = false.
Proof. unfold is_classification. intros Hmode. by apply String.eqb_neq. Qed.

(** X6. What [explain] calls. When the conversion of line 75 or the
    transform of line 77 raises, [explain] raises the same exception and
    calls nothing. When they return, [explain] calls the attributor once,
    first, on the whole batch; then the prediction function once, only if
    the attributor returned, the mode is [classification] and no labels
    were given; nothing else, whatever the outcome. *)
Theorem explain_calls self X y kw tr :
  (∀ e, instances_of self X = Raise e →
        explain self X y kw tr = (Raise e, tr)) ∧
  (∀ insts, instances_of self X = Ok insts →
     (explain self X y kw tr).2 =
       tr ++ EvShapValues insts ::
         match shap_values (explainer self) insts kw with
         | Ok _ =>
             if is_classification self
             then match y with
                  | None => [EvPredict insts]
                  | Some _ => []
                  end
             else []
         | Raise _ => []
         end).
Proof.
  split; [intros e; apply explain_not_prepared|].
  intros insts (T & HT & Hinsts)%instances_of_Ok.
  rewrite (explain_prepared _ _ _ _ _ _ _ _ T insts HT Hinsts).
  destruct (shap_values _ _ _) as [sv|]; [|done].
  unfold resolve_labels. destruct (is_classification self); [|done].
  destruct y as [[v|s|l]|]; [done|done| |].
  - unfold mbind, M_bind, lift, py_assert. by case_bool_decide.
  - unfold mbind, M_bind, call, lift.
    destruct (predict_fn _ _) as [scores|]; simpl; [|by rewrite <- app_assoc].
    destruct (np_argmax_axis1 scores); simpl; by rewrite <- app_assoc.
Qed.

(** X7. In classification mode a label sequence of the right length is
    used as it is: record [i] carries label [i] of the sequence, and the
    prediction function is not called. *)
Theorem label_sequence_used_verbatim self X l kw tr r tr' :
  mode (base self) = "classification" →
  explain self X (Some (LSeq l)) kw tr = (Ok r, tr') →
  ∃ insts,
    instances_of self X = Ok insts ∧
    target_label <$> explanations r = Some <$> l ∧
    length l = length insts ∧
    tr' = tr ++ [EvShapValues insts].
Proof.
  intros Hmode%classification_mode H.
  apply explain_records in H
    as (T & insts & sv & ys & HT & Hinsts & _ & Hy & _ & Hlen & Hrecs).
  apply resolve_labels_Ok in Hy. rewrite Hmode in Hy, Hrecs.
  destruct Hy as (-> & Hl & ->).
  exists insts. split; [apply instances_of_Ok; eauto|]. split; [|done].
  apply list_eq_same_length with (length (explanations r)).
  - rewrite length_fmap. congruence.
  - by rewrite length_fmap.
  - intros i lbl lbl' Hi Hlbl Hseq.
    apply list_lookup_fmap_Some in Hlbl as (rec & -> & Hrec).
    apply list_lookup_fmap_Some in Hseq as (v & -> & Hv).
    apply Hrecs in Hrec
      as (row & lb & imp & triples & _ & (labels & label & Hls & Hli & ->) & _ & _ & ->).
    injection Hls as <-. simpl. congruence.
Qed.

(** X8. A returned result carries the explainer's mode and one record
    per instance, in the order of the instances: record [i] holds row [i]
    of the table as its instance. *)
Theorem records_follow_instances self X y kw tr r tr' :
  explain self X y kw tr = (Ok r, tr') →
  ∃ T insts,
    table_of self X = Ok T ∧
    transformer (base self) T = Ok insts ∧
    fi_mode r = mode (base self) ∧
    instance <$> explanations r =
      (λ row, {| df_rows := [row] |}) <$> take (length insts) (tab_rows T).
Proof.
  intros H.
  apply explain_records in H
    as (T & insts & sv & ys & HT & Hinsts & _ & _ & Hmode & Hlen & Hrecs).
  exists T, insts. split; [done|]. split; [done|]. split; [done|].
  apply list_eq. intros i. rewrite !list_lookup_fmap.
  destruct (decide (i < length insts)) as [Hi|Hi].
  - destruct (lookup_lt_is_Some_2 (explanations r) i) as [rec Hrec]; [lia|].
    rewrite Hrec. simpl.
    apply Hrecs in Hrec as (row & lbl & imp & triples & Hrow & _ & _ & _ & ->).
    rewrite lookup_take_lt by done. by rewrite Hrow.
  - rewrite !lookup_ge_None_2; [done| |lia].
    rewrite length_take. lia.
Qed.

(** X9. When lines 75-77 yield an empty batch, the attributor is still
    called, once, on the empty batch. In a mode other than
    classification, with a single [int] label or with an empty label
    sequence, [explain] then raises the attributor's exception if there
    is one, and otherwise returns a result with the explainer's mode and
    without records. *)
Theorem empty_batch_gives_empty_result self X y kw tr :
  instances_of self X = Ok [] →
  mode (base self) ≠ "classification" ∨ (∃ v, y = Some (LInt v)) ∨
    y = Some (LSeq []) →
  explain self X y kw tr =
    (match shap_values (explainer self) [] kw with
     | Ok _ => Ok (FeatureImportance_new (mode (base self)))
     | Raise e => Raise e
     end,
     tr ++ [EvShapValues []]).
Proof.
  intros (T & HT & Hinsts)%instances_of_Ok Hy.
  rewrite (explain_prepared _ _ _ _ _ _ _ _ T [] HT Hinsts).
  destruct (shap_values _ _ _) as [sv|]; [|done].
  unfold resolve_labels.
  destruct Hy as [Hmode%other_mode|[[v ->]| ->]].
  - by rewrite Hmode.
  - by destruct (is_classification self).
  - by destruct (is_classification self).
Qed.

(** X10. In classification mode a single label that is no index of the
    attributor's list of per-class arrays (at or beyond its length, or
    below minus its length) makes [explain] raise [IndexError] at the
    first instance, when that instance has a row with a cell for every
    kept feature. *)
Theorem label_out_of_range_raises self X v kw tr T classes inst rest row :
  mode (base self) = "classification" →
  table_of self X = Ok T →
  transformer (base self) T = Ok (inst :: rest) →
  shap_values (explainer self) (inst :: rest) kw = Ok (Array classes) →
  tab_rows T !! 0 = Some row →
  (∀ j f, j ∈ valid_indices self → feature_columns (base self) !! j = Some f →
     ∃ c, df_value {| df_rows := [row] |} f = Ok c) →
  (v < - Z.of_nat (length classes) ∨ Z.of_nat (length classes) ≤ v)%Z →
  explain self X (Some (LInt v)) kw tr =
    (Raise IndexError, tr ++ [EvShapValues (inst :: rest)]).
Proof.
  intros Hmode%classification_mode HT Hinsts Hsv Hrow Hcells Hout.
  rewrite (explain_prepared _ _ _ _ _ _ _ _ T _ HT Hinsts), Hsv.
  unfold resolve_labels. rewrite Hmode.
  unfold mret, M_ret. simpl.
  by rewrite (explain_instance_label_out_of_range self _ classes _ _ 0 row v).
Qed.

(** X11. In classification mode a negative single label [v] counts from
    the end of the attributor's list of per-class arrays: the scores of
    every record are those of class [v + C], [C] the number of classes,
    while the record keeps [v] as its target label. *)
Theorem negative_label_counts_from_the_end self X v kw tr insts classes r tr' :
  mode (base self) = "classification" →
  instances_of self X = Ok insts →
  shap_values (explainer self) insts kw = Ok (Array classes) →
  (- Z.of_nat (length classes) ≤ v < 0)%Z →
  explain self X (Some (LInt v)) kw tr = (Ok r, tr') →
  ∃ T, table_of self X = Ok T ∧
  ∀ i rec, explanations r !! i = Some rec →
    target_label rec = Some v ∧
    ∃ row imp triples,
      tab_rows T !! i = Some row ∧
      importance_row (Array classes)
        (Some (v + Z.of_nat (length classes))%Z) i = Ok (Array imp) ∧
      Forall2 (triple_at (feature_columns (base self)) row imp)
              (valid_indices self) triples ∧
      zip (zip (features rec) (values rec)) (scores rec) ≡ₚ triples.
Proof.
  intros Hmode%classification_mode (T0 & HT0 & Hinsts)%instances_of_Ok Hsv Hneg H.
  apply explain_records in H
    as (T & l & sv & ys & HT & Hl & Hsv' & Hy & _ & _ & Hrecs).
  assert (T0 = T) as -> by congruence.
  assert (l = insts) as -> by congruence.
  rewrite Hsv in Hsv'. injection Hsv' as <-.
  apply resolve_labels_Ok in Hy. rewrite Hmode in Hy, Hrecs.
  destruct Hy as [-> _].
  exists T. split; [done|]. intros i rec Hrec.
  apply Hrecs in Hrec
    as (row & lb & imp & triples & Hrow & (labels & label & Hlb & Hli & ->)
        & Himp & Htr & ->).
  injection Hlb as <-. apply lookup_replicate in Hli as [-> _].
  split; [done|]. exists row, imp, triples.
  split; [done|]. split; [|split; [done|]].
  - simpl in *. by rewrite <- py_index_negative.
  - rewrite record_of_triples. apply sort_desc_perm.
Qed.

(** X12. Every mode string other than [classification] is run as
    regression: the labels argument has no effect, the prediction
    function is not called and no record has a target label. *)
Theorem other_modes_run_as_regression self X kw tr :
  mode (base self) ≠ "classification" →
  (∀ y, explain self X y kw tr = explain self X None kw tr) ∧
  (∀ y r tr',
     explain self X y kw tr = (Ok r, tr') →
     (∃ insts, instances_of self X = Ok insts ∧
               tr' = tr ++ [EvShapValues insts]) ∧
     Forall (λ rec, target_label rec = None) (explanations r)).
Proof.
  intros Hmode%other_mode. split.
  - intros y. rewrite !explain_unfold.
    unfold resolve_labels. by rewrite Hmode.
  - intros y r tr' H.
    apply explain_records in H
      as (T & insts & sv & ys & HT & Hinsts & _ & Hy & _ & _ & Hrecs).
    apply resolve_labels_Ok in Hy. rewrite Hmode in Hy. destruct Hy as [_ ->].
    split; [exists insts; split; [apply instances_of_Ok; eauto|done]|].
    apply Forall_lookup. intros i rec Hrec.
    apply Hrecs in Hrec as (row & lb & imp & triples & _ & Hlb & _ & _ & ->).
    rewrite Hmode in Hlb. by subst lb.
Qed.

(** X13. A kept feature column without a cell in the row of the first
    instance makes [explain] raise [KeyError] for that column, once the
    attributor has returned and the labels are resolved, when the kept
    columns before it have their cells. *)
Theorem missing_cell_raises_KeyError self X y kw tr T sv ys tr' inst rest row
    pre j post f :
  table_of self X = Ok T →
  transformer (base self) T = Ok (inst :: rest) →
  shap_values (explainer self) (inst :: rest) kw = Ok sv →
  resolve_labels self (inst :: rest) y
    (tr ++ [EvShapValues (inst :: rest)]) = (Ok ys, tr') →
  tab_rows T !! 0 = Some row →
  valid_indices self = pre ++ j :: post →
  feature_columns (base self) !! j = Some f →
  (∀ j' f', j' ∈ pre → feature_columns (base self) !! j' = Some f' →
     ∃ c, df_value {| df_rows := [row] |} f' = Ok c) →
  (∀ cell, cell ∈ row → cell.1 ≠ f) →
  explain self X y kw tr = (Raise (KeyError f), tr').
Proof.
  intros HT Hinsts Hsv Hy Hrow Hvalid Hf Hpre Hmissing.
  rewrite (explain_prepared _ _ _ _ _ _ _ _ T _ HT Hinsts), Hsv, Hy. simpl.
  by rewrite (explain_instance_missing_cell self _ sv ys _ 0 row pre j post f).
Qed.

(** X14. A record depends only on its own instance: two returned results
    of one explainer agree on record [i] as soon as the two calls agree on
    row [i] of the table, on the label of record [i] and on the
    attributor's row of scores for it, whatever the rest of the batches,
    the other labels and the other scores are. *)
Theorem record_depends_only_on_own_instance self X1 X2 y1 y2 kw1 kw2 tr1 tr2
    r1 r2 tr1' tr2' T1 T2 insts1 insts2 sv1 sv2 i rec1 rec2 :
  explain self X1 y1 kw1 tr1 = (Ok r1, tr1') →
  explain self X2 y2 kw2 tr2 = (Ok r2, tr2') →
  table_of self X1 = Ok T1 →
  table_of self X2 = Ok T2 →
  transformer (base self) T1 = Ok insts1 →
  transformer (base self) T2 = Ok insts2 →
  shap_values (explainer self) insts1 kw1 = Ok sv1 →
  shap_values (explainer self) insts2 kw2 = Ok sv2 →
  explanations r1 !! i = Some rec1 →
  explanations r2 !! i = Some rec2 →
  tab_rows T1 !! i = tab_rows T2 !! i →
  target_label rec1 = target_label rec2 →
  importance_row sv1 (target_label rec1) i =
    importance_row sv2 (target_label rec1) i →
  rec1 = rec2.
Proof.
  intros H1 H2 HT1 HT2 Hi1 Hi2 Hsv1 Hsv2 Hrec1 Hrec2 Hrows Hlabel Hscores.
  apply explain_records in H1
    as (T1' & l1 & sv1' & ys1 & HT1' & Hl1 & Hsv1' & _ & _ & _ & Hrecs1).
  apply explain_records in H2
    as (T2' & l2 & sv2' & ys2 & HT2' & Hl2 & Hsv2' & _ & _ & _ & Hrecs2).
  assert (T1' = T1) as -> by congruence.
  assert (T2' = T2) as -> by congruence.
  assert (l1 = insts1) as -> by congruence.
  assert (l2 = insts2) as -> by congruence.
  assert (sv1' = sv1) as -> by congruence.
  assert (sv2' = sv2) as -> by congruence.
  apply Hrecs1 in Hrec1 as (row1 & lb1 & imp1 & t1 & Hrow1 & _ & Himp1 & Ht1 & ->).
  apply Hrecs2 in Hrec2 as (row2 & lb2 & imp2 & t2 & Hrow2 & _ & Himp2 & Ht2 & ->).
  simpl in Hlabel, Hscores. subst lb2.
  assert (row2 = row1) as -> by congruence.
  assert (imp2 = imp1) as -> by congruence.
  by rewrite (triple_at_functional _ _ _ _ _ _ Ht1 Ht2).
Qed.

End ExplainExtras.

(** ** The further theorems at work *)

Lemma explain_calls_witness :
  Cases.run_on Cases.failing_transformer Demo.X None = (Raise ValueError, []) ∧
  (Demo.run (Demo.classifier []) None).2 =
    [EvShapValues (Demo.encode <$> tab_rows Demo.X);
     EvPredict (Demo.encode <$> tab_rows Demo.X)] ∧
  (Demo.run (Demo.classifier []) (Some (LInt 0))).2 =
    [EvShapValues (Demo.encode <$> tab_rows Demo.X)].
Proof.
  split; [|split].
  - apply (proj1 (explain_calls Tabular (λ _ t, Ok t) (λ t, Ok t)
                    Cases.failing_transformer Demo.X None ∅ [])).
    reflexivity.
  - apply (proj2 (explain_calls Tabular (λ _ t, Ok t) (λ t, Ok t)
                    (Demo.classifier []) Demo.X None ∅ [])
             (Demo.encode <$> tab_rows Demo.X)).
    reflexivity.
  - apply (proj2 (explain_calls Tabular (λ _ t, Ok t) (λ t, Ok t)
                    (Demo.classifier []) Demo.X (Some (LInt 0)) ∅ [])
             (Demo.encode <$> tab_rows Demo.X)).
    reflexivity.
Defined.

Lemma label_sequence_used_verbatim_witness :
  ∃ r tr', Demo.run (Demo.classifier []) (Some (LSeq [0; 1]%Z)) = (Ok r, tr') ∧
    target_label <$> explanations r = [Some 0%Z; Some 1%Z] ∧
    tr' = [EvShapValues (Demo.encode <$> tab_rows Demo.X)].
Proof.
  eexists _, _. split; [vm_compute; reflexivity|].
  edestruct (label_sequence_used_verbatim Tabular (λ _ t, Ok t) (λ t, Ok t)
               (Demo.classifier []) Demo.X [0; 1]%Z ∅ [])
    as (insts & Hinsts & Hlabels & _ & Htrace);
    [reflexivity|vm_compute; reflexivity|].
  injection Hinsts as <-.
  split; [exact Hlabels|exact Htrace].
Defined.

Lemma records_follow_instances_witness :
  ∃ r tr', Demo.run (Demo.regressor ["a"]) None = (Ok r, tr') ∧
    fi_mode r = "regression" ∧
    instance <$> explanations r =
      [{| df_rows := [Demo.row0] |}; {| df_rows := [Demo.row1] |}].
Proof.
  eexists _, _. split; [vm_compute; reflexivity|].
  edestruct (records_follow_instances Tabular (λ _ t, Ok t) (λ t, Ok t)
               (Demo.regressor ["a"]) Demo.X None ∅ [])
    as (T & insts & HT & Hinsts & Hmode & Hrows); [vm_compute; reflexivity|].
  injection HT as <-. injection Hinsts as <-.
  split; [exact Hmode|exact Hrows].
Defined.

Lemma empty_batch_gives_empty_result_witness :
  Cases.run_on Cases.numeric_regressor Cases.no_rows None =
    (Ok (FeatureImportance_new "regression"), [EvShapValues []]).
Proof.
  apply (empty_batch_gives_empty_result Tabular (λ _ t, Ok t) (λ t, Ok t)
           Cases.numeric_regressor Cases.no_rows None ∅ []).
  - reflexivity.
  - left. discriminate.
Defined.

Lemma all_cells_present (self : ShapTabular) :
  feature_columns (base self) = ["a"; "b"; "c"] →
  ∀ j f, j ∈ valid_indices self → feature_columns (base self) !! j = Some f →
    ∃ c, df_value {| df_rows := [Demo.row0] |} f = Ok c.
Proof.
  intros Hcols j f _ Hf. rewrite Hcols in Hf.
  destruct j as [|[|[|j]]]; simpl in Hf; [| | |done];
    injection Hf as <-; eexists; reflexivity.
Qed.

Lemma label_out_of_range_raises_witness :
  Demo.run (Demo.classifier []) (Some (LInt 2)) =
    (Raise IndexError, [EvShapValues (Demo.encode <$> tab_rows Demo.X)]).
Proof.
  eapply (label_out_of_range_raises Tabular (λ _ t, Ok t) (λ t, Ok t)
            (Demo.classifier []) Demo.X 2%Z ∅ [] Demo.X _ _ _ Demo.row0).
  - reflexivity.
  - reflexivity.
  - reflexivity.
  - reflexivity.
  - reflexivity.
  - by apply all_cells_present.
  - right. simpl. lia.
Defined.

Lemma negative_label_counts_from_the_end_witness :
  ∃ r tr', Demo.run (Demo.classifier ["b"]) (Some (LInt (-1))) = (Ok r, tr') ∧
    ∃ T, Ok Demo.X = Ok T ∧
    ∀ i rec, explanations r !! i = Some rec →
      target_label rec = Some (-1)%Z ∧
      ∃ row imp triples,
        tab_rows T !! i = Some row ∧
        importance_row Demo.class_values (Some 1%Z) i = Ok (Array imp) ∧
        Forall2 (triple_at ["a"; "b"; "c"] row imp)
                (valid_indices (Demo.classifier ["b"])) triples ∧
        zip (zip (features rec) (values rec)) (scores rec) ≡ₚ triples.
Proof.
  eexists _, _. split; [vm_compute; reflexivity|].
  eapply (negative_label_counts_from_the_end Tabular (λ _ t, Ok t) (λ t, Ok t)
            (Demo.classifier ["b"]) Demo.X (-1)%Z ∅ []
            (Demo.encode <$> tab_rows Demo.X)).
  - reflexivity.
  - reflexivity.
  - reflexivity.
  - simpl. lia.
  - vm_compute. reflexivity.
Defined.

Lemma other_modes_run_as_regression_witness :
  (∀ y, Cases.run_on Cases.capitalised Demo.X y =
        Cases.run_on Cases.capitalised Demo.X None) ∧
  (∀ y r tr', Cases.run_on Cases.capitalised Demo.X y = (Ok r, tr') →
     (∃ insts, Ok (Demo.encode <$> tab_rows Demo.X) = Ok insts ∧
               tr' = [EvShapValues insts]) ∧
     Forall (λ rec, target_label rec = None) (explanations r)).
Proof.
  apply (other_modes_run_as_regression Tabular (λ _ t, Ok t) (λ t, Ok t)
           Cases.capitalised Demo.X ∅ []).
  discriminate.
Defined.

Lemma missing_cell_raises_KeyError_witness :
  Cases.run_on (Cases.stale []) Demo.X (Some (LInt 0)) =
    (Raise (KeyError "d"), [EvShapValues (Demo.encode <$> tab_rows Demo.X)]).
Proof.
  eapply (missing_cell_raises_KeyError Tabular (λ _ t, Ok t) (λ t, Ok t)
            (Cases.stale []) Demo.X (Some (LInt 0)) ∅ [] Demo.X Demo.class_values
            _ _ _ _ Demo.row0 [0] 1 [2] "d").
  - reflexivity.
  - reflexivity.
  - reflexivity.
  - reflexivity.
  - reflexivity.
  - vm_compute. reflexivity.
  - reflexivity.
  - intros j' f' Hj' Hf'. apply list_elem_of_singleton in Hj' as ->.
    injection Hf' as <-. eexists. reflexivity.
  - intros cell Hcell. unfold Demo.row0 in Hcell.
    rewrite !elem_of_cons, elem_of_nil in Hcell.
    destruct Hcell as [->|[->|[->|[]]]]; discriminate.
Defined.

Lemma record_depends_only_on_own_instance_witness :
  ∃ r1 r2 tr1 tr2,
    Demo.run (Demo.classifier ["b"]) (Some (LInt 0)) = (Ok r1, tr1) ∧
    Demo.run (Demo.classifier ["b"]) (Some (LSeq [0; 1]%Z)) = (Ok r2, tr2) ∧
    explanations r1 !! 0 = explanations r2 !! 0.
Proof.
  eexists _, _, _, _. split; [vm_compute; reflexivity|].
  split; [vm_compute; reflexivity|].
  match goal with
  | |- ?l1 !! 0 = ?l2 !! 0 =>
      destruct (lookup_lt_is_Some_2 l1 0) as [rec1 Hrec1]; [simpl; lia|];
      destruct (lookup_lt_is_Some_2 l2 0) as [rec2 Hrec2]; [simpl; lia|];
      rewrite Hrec1, Hrec2; f_equal
  end.
  eapply (record_depends_only_on_own_instance Tabular (λ _ t, Ok t) (λ t, Ok t)
            (Demo.classifier ["b"]) Demo.X Demo.X
            (Some (LInt 0)) (Some (LSeq [0; 1]%Z)) ∅ ∅ [] []).
  - vm_compute. reflexivity.
  - vm_compute. reflexivity.
  - reflexivity.
  - reflexivity.
  - reflexivity.
  - reflexivity.
  - reflexivity.
  - reflexivity.
  - exact Hrec1.
  - exact Hrec2.
  - reflexivity.
  - simpl in Hrec1, Hrec2. injection Hrec1 as <-. injection Hrec2 as <-.
    reflexivity.
  - reflexivity.
Defined.
